(** * StackExchange backend of Perceval: a shallow embedding

    Source: [perceval/backends/core/stackexchange.py].

    The Python values that flow through the backend are decoded JSON
    documents, request payloads (dictionaries built by the client) and
    aware datetimes.  Fallible operations return a [result]; the paginating
    generator [get_questions] is a resumable state machine whose effects
    (transport calls, sleeps, log records, yields) are appended to a trace. *)

From Stdlib Require Import ZArith Floats.SpecFloat.
From stdpp Require Import base tactics option list strings pretty gmap.

Local Open Scope Z_scope.
Set Warnings "-register-all".

(** ** Exceptions and results *)

Inductive exn :=
  | KeyError (key : string)
  | TypeError
  | ValueError
  | OverflowError
  | AttributeError
  | JSONDecodeError
  | BackendError (cause : string)
  | RequestException (info : string)
  | OSError.

Inductive result (A : Type) :=
  | Ok (a : A)
  | Err (e : exn).
Arguments Ok {A} a.
Arguments Err {A} e.

#[global] Instance result_ret : MRet result := fun A a => Ok a.
#[global] Instance result_bind : MBind result := fun A B f r =>
  match r with
  | Ok a => f a
  | Err e => Err e
  end.

Definition is_ok {A} (r : result A) : bool :=
  match r with Ok _ => true | Err _ => false end.

(** ** Python floats: IEEE 754 binary64 *)

Definition pyfloat := spec_float.

Definition fprec : Z := 53.
Definition femax : Z := 1024.

(** [float(n)] for an [int]: round to nearest, ties to even; an [int] beyond
    the binary64 range raises [OverflowError]. *)
Definition float_of_Z (n : Z) : result pyfloat :=
  match binary_normalize fprec femax n 0 false with
  | S754_infinity _ => Err OverflowError
  | f => Ok f
  end.

(** [int(x)] for a [float]: truncation toward zero. *)
Definition int_of_float (x : pyfloat) : result Z :=
  match x with
  | S754_zero _ => Ok 0
  | S754_finite s m e =>
      Ok (cond_Zopp s (if 0 <=? e then Z.pos m * 2 ^ e
                       else Z.pos m `quot` 2 ^ (- e)))
  | S754_infinity _ => Err OverflowError
  | S754_nan => Err ValueError
  end.

(** The mathematical floor of a finite float. *)
Definition float_floor (x : pyfloat) : option Z :=
  match x with
  | S754_zero _ => Some 0
  | S754_finite s m e =>
      Some (if 0 <=? e then cond_Zopp s (Z.pos m) * 2 ^ e
            else cond_Zopp s (Z.pos m) `div` 2 ^ (- e))
  | _ => None
  end.

(** The integer next to [x] away from zero ([ceil] of a positive float,
    [floor] of a negative one), [None] when [x] is not finite. *)
Definition float_away (x : pyfloat) : option Z :=
  match x with
  | S754_zero _ => Some 0
  | S754_finite s m e =>
      Some (cond_Zopp s (if 0 <=? e then Z.pos m * 2 ^ e
                         else - ((- Z.pos m) `div` 2 ^ (- e))))
  | _ => None
  end.

(** [x == n] for a [float] and an [int]: Python compares the exact values. *)
Definition float_eq_Z (x : pyfloat) (n : Z) : bool :=
  match x with
  | S754_zero _ => n =? 0
  | S754_finite s m e =>
      if 0 <=? e then cond_Zopp s (Z.pos m) * 2 ^ e =? n
      else cond_Zopp s (Z.pos m) =? n * 2 ^ (- e)
  | _ => false
  end.

(** Exact three-way comparison of a finite float with an [int]. *)
Definition float_cmp_Z (x : pyfloat) (n : Z) : option comparison :=
  match x with
  | S754_zero _ => Some (0 ?= n)
  | S754_finite s m e =>
      Some (if 0 <=? e then cond_Zopp s (Z.pos m) * 2 ^ e ?= n
            else cond_Zopp s (Z.pos m) ?= n * 2 ^ (- e))
  | S754_infinity s => Some (if s then Lt else Gt)
  | S754_nan => None
  end.

Definition float_is_zero (x : pyfloat) : bool :=
  match x with S754_zero _ => true | _ => false end.

(** ** Decoded JSON documents

    [json.loads] yields [None], [bool], [int], [float], [str], [list] and
    [dict]; a [dict] keeps its keys in insertion order, one entry per key. *)

Inductive json :=
  | JNull
  | JBool (b : bool)
  | JInt (n : Z)
  | JFloat (x : pyfloat)
  | JStr (s : string)
  | JList (l : list json)
  | JDict (kvs : list (string * json)).

Fixpoint assoc (k : string) (kvs : list (string * json)) : option json :=
  match kvs with
  | [] => None
  | (k', v) :: rest => if String.eqb k k' then Some v else assoc k rest
  end.

(** Truth value testing ([if x:], [while x:], [not x]). *)
Definition py_truthy (v : json) : bool :=
  match v with
  | JNull => false
  | JBool b => b
  | JInt n => negb (n =? 0)
  | JFloat x => negb (float_is_zero x)
  | JStr s => negb (String.eqb s EmptyString)
  | JList l => match l with [] => false | _ => true end
  | JDict kvs => match kvs with [] => false | _ => true end
  end.

(** [d[k]] with a string key. *)
Definition py_getitem (d : json) (k : string) : result json :=
  match d with
  | JDict kvs =>
      match assoc k kvs with
      | Some v => Ok v
      | None => Err (KeyError k)
      end
  | _ => Err TypeError
  end.

(** [d.get(k, None)]. *)
Definition py_get (d : json) (k : string) : result json :=
  match d with
  | JDict kvs => Ok (default JNull (assoc k kvs))
  | _ => Err AttributeError
  end.

(** *** Operators on decoded values

    [bool] is a subclass of [int]: [True] counts as [1], [False] as [0]. *)

Definition as_int (v : json) : option Z :=
  match v with
  | JBool b => Some (if b then 1 else 0)
  | JInt n => Some n
  | _ => None
  end.

(** [a == b]; never raises on decoded JSON. *)
Fixpoint py_eq (a b : json) {struct a} : bool :=
  match a, b with
  | JNull, JNull => true
  | (JBool _ | JInt _), (JBool _ | JInt _) =>
      match as_int a, as_int b with
      | Some x, Some y => x =? y
      | _, _ => false
      end
  | (JBool _ | JInt _), JFloat y =>
      match as_int a with Some x => float_eq_Z y x | None => false end
  | JFloat x, (JBool _ | JInt _) =>
      match as_int b with Some y => float_eq_Z x y | None => false end
  | JFloat x, JFloat y => SFeqb x y
  | JStr s, JStr t => String.eqb s t
  | JList la, JList lb =>
      (fix go (la lb : list json) : bool :=
         match la, lb with
         | [], [] => true
         | x :: xs, y :: ys => py_eq x y && go xs ys
         | _, _ => false
         end) la lb
  | JDict da, JDict db =>
      (length da =? length db)%nat &&
      (fix go (da : list (string * json)) : bool :=
         match da with
         | [] => true
         | (k, v) :: rest =>
             match assoc k db with
             | Some w => py_eq v w && go rest
             | None => false
             end
         end) da
  | _, _ => false
  end.

(** [a < b]; unordered operand types raise [TypeError]. *)
Fixpoint py_lt (a b : json) {struct a} : result bool :=
  match a, b with
  | (JBool _ | JInt _), (JBool _ | JInt _) =>
      match as_int a, as_int b with
      | Some x, Some y => Ok (x <? y)
      | _, _ => Err TypeError
      end
  | (JBool _ | JInt _), JFloat y =>
      match as_int a with
      | Some x => Ok (match float_cmp_Z y x with Some Gt => true | _ => false end)
      | None => Err TypeError
      end
  | JFloat x, (JBool _ | JInt _) =>
      match as_int b with
      | Some y => Ok (match float_cmp_Z x y with Some Lt => true | _ => false end)
      | None => Err TypeError
      end
  | JFloat x, JFloat y => Ok (SFltb x y)
  | JStr s, JStr t => Ok (String.ltb s t)
  | JList la, JList lb =>
      (fix go (la lb : list json) : result bool :=
         match la, lb with
         | [], [] => Ok false
         | [], _ :: _ => Ok true
         | _ :: _, [] => Ok false
         | x :: xs, y :: ys => if py_eq x y then go xs ys else py_lt x y
         end) la lb
  | _, _ => Err TypeError
  end.

(** [min(a, b)]: [b] is taken only when [b < a]. *)
Definition py_min (a b : json) : result json :=
  lt ← py_lt b a;
  mret (if lt : bool then b else a).

(** [a + b] (also the value bound by [a += b]). *)
Definition py_add (a b : json) : result json :=
  match a, b with
  | (JBool _ | JInt _), (JBool _ | JInt _) =>
      match as_int a, as_int b with
      | Some x, Some y => Ok (JInt (x + y))
      | _, _ => Err TypeError
      end
  | (JBool _ | JInt _), JFloat y =>
      match as_int a with
      | Some n => x ← float_of_Z n; mret (JFloat (SFadd fprec femax x y))
      | None => Err TypeError
      end
  | JFloat x, (JBool _ | JInt _) =>
      match as_int b with
      | Some n => y ← float_of_Z n; mret (JFloat (SFadd fprec femax x y))
      | None => Err TypeError
      end
  | JFloat x, JFloat y => Ok (JFloat (SFadd fprec femax x y))
  | JStr s, JStr t => Ok (JStr (s +:+ t))
  | JList la, JList lb => Ok (JList (la ++ lb))
  | _, _ => Err TypeError
  end.

(** ** Text

    A [str] is kept as its UTF-8 bytes.  Its characters are the code
    points: a byte that is not a continuation byte ([10xxxxxx]) starts
    one, and the continuation bytes after it belong to it. *)

Definition is_continuation (c : Ascii.ascii) : bool :=
  let n := Ascii.nat_of_ascii c in (128 <=? n)%nat && (n <? 192)%nat.

Fixpoint code_points (s : string) : list string :=
  match s with
  | EmptyString => []
  | String c rest =>
      let us := code_points rest in
      match rest with
      | String c' _ =>
          if is_continuation c' then
            match us with
            | u :: us' => String c u :: us'
            | [] => [String c EmptyString]
            end
          else String c EmptyString :: us
      | EmptyString => [String c EmptyString]
      end
  end.

(** ** The Python runtime and the libraries outside the repository

    [json.loads], the text-to-float conversion behind [float(str)] and the
    [repr] used by [str] on floats and containers belong to CPython; they
    are taken as given.  So is the sleep of the platform, which
    [time.sleep] calls once it has checked the length: [nanosleep n ns] is
    the outcome of a sleep of [ns] nanoseconds asked for when [n] transport
    calls have been made (the platform refuses some lengths, depending on
    its clock). *)

Class PyRuntime := {
  json_loads : string → result json;
  float_of_str : string → result pyfloat;
  py_repr : json → string;
  nanosleep : nat → Z → result ();
}.

Section Builtins.
Context `{PyRuntime}.

(** [float(v)]. *)
Definition py_float (v : json) : result pyfloat :=
  match v with
  | JBool b => float_of_Z (if b then 1 else 0)
  | JInt n => float_of_Z n
  | JFloat x => Ok x
  | JStr s => float_of_str s
  | _ => Err TypeError
  end.

(** [str(v)]. *)
Definition py_str (v : json) : string :=
  match v with
  | JNull => "None"
  | JBool true => "True"
  | JBool false => "False"
  | JInt n => pretty n
  | JStr s => s
  | _ => py_repr v
  end.

(** [yield from v]: the elements an iteration over [v] produces (the keys
    of a [dict], the characters of a [str]). *)
Definition py_iter (v : json) : result (list json) :=
  match v with
  | JList l => Ok l
  | JDict kvs => Ok (JStr <$> kvs.*1)
  | JStr s => Ok (JStr <$> code_points s)
  | _ => Err TypeError
  end.

(** [a += b]: a list is extended by the elements of any iterable; the
    other values have no in-place addition and fall back on [a + b]. *)
Definition py_iadd (a b : json) : result json :=
  match a with
  | JList la => items ← py_iter b; mret (JList (la ++ items))
  | _ => py_add a b
  end.
End Builtins.

(** ** State and error monad

    A computation reads and updates a state [S]; when it raises, the state
    reached so far is kept (effects before the exception have happened). *)

Definition St (S A : Type) : Type := S → result A * S.

#[global] Instance St_ret {S} : MRet (St S) := λ A a s, (Ok a, s).
#[global] Instance St_bind {S} : MBind (St S) := λ A B f m s,
  match m s with
  | (Ok a, s') => f a s'
  | (Err e, s') => (Err e, s')
  end.

Definition lift {S A} (r : result A) : St S A := λ s, (r, s).

(** ** Datetimes

    An aware datetime is identified with its instant, counted in
    microseconds from 1970-01-01T00:00:00Z.  Every [datetime] object is
    true in a boolean context. *)

Record datetime := { micros : Z }.

(** [d.timestamp()]: the correctly rounded quotient of the microsecond
    count by [10**6]. *)
Definition timestamp (d : datetime) : pyfloat :=
  match micros d with
  | Z0 => S754_zero false
  | Z.pos p => SFdiv fprec femax (S754_finite false p 0) (S754_finite false 1000000 0)
  | Z.neg p => SFdiv fprec femax (S754_finite true p 0) (S754_finite false 1000000 0)
  end.

(** Modelled from the spec: [DEFAULT_DATETIME] of [perceval.utils], the
    epoch sentinel that stands for no lower time bound. *)
Definition DEFAULT_DATETIME : datetime := {| micros := 0 |}.

(** [grimoirelab_toolkit.datetime.datetime_to_utc]: the same instant,
    expressed in UTC. *)
Definition datetime_to_utc (d : datetime) : datetime := d.

(** [grimoirelab_toolkit.uris.urijoin] on parts that carry no slash at
    either end. *)
Definition urijoin (parts : list string) : string := String.concat "/" parts.

(** ** Module constants *)

Definition CATEGORY_QUESTION : string := "question".
Definition MAX_QUESTIONS : Z := 100.

(** ** Collaborators elsewhere in Perceval

    [Backend.__init__] ([perceval.backend]) and [HttpClient.fetch]
    ([perceval.client]) are not part of this module.  The transport answers
    the [n]-th request of a run (counting from 0) for a URL and a payload
    with a response or an exception. *)

Record response := {
  resp_text : string;          (* [req.text] *)
  resp_json : result json;     (* [req.json()] *)
}.

Class Perceval := {
  archive_t : Type;
  backend_t : Type;
  Backend_init : string → option string → option archive_t → bool → result backend_t;
  HttpClient_fetch : nat → string → gmap string json → result response;
}.

(** Truthiness of an optional string ([None] and the empty string are false). *)
Definition str_truthy (s : option string) : bool :=
  match s with
  | None => false
  | Some s => negb (String.eqb s EmptyString)
  end.

Definition json_of_str (s : option string) : json :=
  match s with
  | None => JNull
  | Some s => JStr s
  end.

(** ** class StackExchangeClient *)

Module StackExchangeClient.

Definition STACKEXCHANGE_API_URL : string := "https://api.stackexchange.com".
Definition VERSION_API : string := "2.2".
Definition RQUESTIONS : string := "questions".

Definition PPAGE : string := "page".
Definition PPAGESIZE : string := "pagesize".
Definition PORDER : string := "order".
Definition PSORT : string := "sort".
Definition PTAGGED : string := "tagged".
Definition PSITE : string := "site".
Definition PKEY : string := "key".
Definition PFILTER : string := "filter".
Definition PMIN : string := "min".
Definition PACCESSTOKEN : string := "access_token".

Definition VQUESTIONS_FILTER : string :=
  "Bf*y*ByQD_upZqozgU6lXL_62USGOoV3)MFNgiHqHpmO_Y-jHR".

(** The attributes the client reads.  [base_url] is set by
    [HttpClient.__init__]; [archive], [from_archive] and [ssl_verify] are
    handed to it as well and only used by the transport. *)
Record t := {
  base_url : string;
  site : string;
  tagged : option string;
  token : option string;
  access_token : option string;
  max_questions : Z;
}.

Definition __init__ (site : string) (tagged token access_token : option string)
    (max_questions : Z) : t :=
  {| base_url := STACKEXCHANGE_API_URL;
     site := site;
     tagged := tagged;
     token := token;
     access_token := access_token;
     max_questions := max_questions |}.

(** *** [__build_payload] *)

Definition __build_payload (self : t) (page : Z) (from_date : option datetime)
    (order sort : string) : result (gmap string json) :=
  let payload : gmap string json :=
    {[ PPAGE := JInt page;
       PPAGESIZE := JInt (max_questions self);
       PORDER := JStr order;
       PSORT := JStr sort;
       PTAGGED := json_of_str (tagged self);
       PSITE := JStr (site self);
       PKEY := json_of_str (token self);
       PFILTER := JStr VQUESTIONS_FILTER ]} in
  payload ←
    match from_date with
    | Some d =>
        timestamp ← int_of_float (timestamp d);
        mret (<[PMIN := JInt timestamp]> payload)
    | None => mret payload
    end;
  let payload :=
    if str_truthy (access_token self)
    then <[PACCESSTOKEN := json_of_str (access_token self)]> payload
    else payload in
  mret payload.

Definition build_page_payload (self : t) (page : Z) (from_date : option datetime) :=
  __build_payload self page from_date "asc" "activity".

(** *** [sanitize_for_archive]

    The payload is a dictionary object: the function receives a reference
    into the store of dictionaries and pops the credentials from the
    object itself. *)

Abbreviation loc := positive (only parsing).
Abbreviation store := (gmap positive (gmap string json)) (only parsing).

Definition deref (h : store) (p : loc) : gmap string json := default ∅ (h !! p).

(** [k in payload] *)
Definition dict_contains (k : string) (p : loc) : St store bool :=
  λ h, (Ok (bool_decide (is_Some (deref h p !! k))), h).

(** [payload.pop(k)] *)
Definition dict_pop (k : string) (p : loc) : St store json :=
  λ h, match deref h p !! k with
       | Some v => (Ok v, <[p := delete k (deref h p)]> h)
       | None => (Err (KeyError k), h)
       end.

Definition sanitize_for_archive {H : Type} (url : string) (headers : H) (payload : loc)
    : St store (string * H * loc) :=
  has_key ← dict_contains PKEY payload;
  (if has_key : bool then dict_pop PKEY payload ≫= λ _, mret () else mret ());;
  has_token ← dict_contains PACCESSTOKEN payload;
  (if has_token : bool then dict_pop PACCESSTOKEN payload ≫= λ _, mret () else mret ());;
  mret (url, headers, payload).

End StackExchangeClient.

(** ** Observable effects of a run *)

Inductive level := DEBUG | INFO.

Inductive event :=
  | EFetch (url : string) (payload : gmap string json)   (* a transport call *)
  | ESleep (secs : pyfloat)                              (* [time.sleep] *)
  | ELog (lvl : level) (msg : string)                    (* a log record *)
  | EYield (page : string).                              (* a value handed to the consumer *)

Record world := {
  calls : nat;             (* transport calls made so far *)
  trace : list event;      (* effects so far, oldest first *)
}.

Definition world0 : world := {| calls := 0; trace := [] |}.

Definition emit (ev : event) : St world () :=
  λ w, (Ok (), {| calls := calls w; trace := trace w ++ [ev] |}).

(** *** [time.sleep]

    CPython (3.11, on x86-64) turns the length into a whole number of
    nanoseconds: the double product [secs * 1e9], rounded away from zero.
    A NaN is a [ValueError]; a product beyond [-2^63 .. 2^63] (an infinity
    included) is an [OverflowError]; a negative number of nanoseconds is a
    [ValueError], and so is [2^63] itself, which passes the range test
    and which the conversion to a 64-bit integer turns into the most
    negative one.  The platform then sleeps, or refuses. *)

Definition sleep_ns (secs : pyfloat) : result Z :=
  match secs with
  | S754_nan => Err ValueError
  | _ =>
      match float_away (SFmul fprec femax secs (S754_finite false 1000000000 0)) with
      | Some ns =>
          if (- 2 ^ 63 <=? ns) && (ns <=? 2 ^ 63) then
            if (ns <? 0) || (ns =? 2 ^ 63) then Err ValueError else Ok ns
          else Err OverflowError
      | None => Err OverflowError
      end
  end.

Section Sleep.
Context `{PyRuntime}.

(** The outcome of [time.sleep(secs)] when [n] transport calls have been
    made. *)
Definition sleep_check (n : nat) (secs : pyfloat) : result () :=
  ns ← sleep_ns secs;
  nanosleep n ns.

Definition time_sleep (secs : pyfloat) : St world () :=
  λ w, match sleep_check (calls w) secs with
       | Ok _ => emit (ESleep secs) w
       | Err e => (Err e, w)
       end.
End Sleep.

(** What one [next()] on a generator of pages produces. *)
Inductive step :=
  | Yield (page : string)
  | StopIteration
  | Raise (e : exn).

Module Questions.

Import StackExchangeClient.

(** The local variables alive across the [yield] of [get_questions]
    ([questions] is rebound to [None] right after it). *)
Record frame := {
  page : Z;
  data : json;
  nquestions : json;
  tquestions : json;
}.

Inductive gen :=
  | Created                   (* not started *)
  | Suspended (fr : frame)    (* stopped at the [yield] *)
  | Closed.                   (* returned or raised *)

Section Generator.
Context `{PyRuntime} `{Perceval}.

(** [self.fetch(url, payload=...)] *)
Definition fetch (url : string) (payload : gmap string json) : St world response :=
  λ w, (HttpClient_fetch (calls w) url payload,
        {| calls := S (calls w); trace := trace w ++ [EFetch url payload] |}).

(** *** [__log_status] *)
Definition __log_status (quota_remaining quota_max page_size total : json)
    : St world () :=
  emit (ELog DEBUG ("Rate limit: " +:+ py_str quota_remaining +:+ "/"
                    +:+ py_str quota_max));;
  if negb (py_eq total (JInt 0)) then
    nquestions ← lift (py_min page_size total);
    emit (ELog INFO ("Fetching questions: " +:+ py_str nquestions +:+ "/"
                     +:+ py_str total))
  else
    emit (ELog INFO "No questions were found.").

Definition questions_url (self : t) : string :=
  urijoin [base_url self; VERSION_API; RQUESTIONS].

(** The test of [while questions:] followed, when it holds, by
    [yield questions]. *)
Definition loop_head (questions : string) (fr : frame)
    : St world (option (string * frame)) :=
  if negb (String.eqb questions EmptyString) then
    emit (EYield questions);;
    mret (Some (questions, fr))
  else mret None.

(** *** [get_questions], from the call to the first [yield] or the end *)
Definition get_questions_start (self : t) (from_date : option datetime)
    : St world (option (string * frame)) :=
  let page := 1 in
  let url := questions_url self in
  payload ← lift (build_page_payload self page from_date);
  req ← fetch url payload;
  let questions := resp_text req in
  data ← lift (resp_json req);
  tquestions ← lift (py_getitem data "total");
  nquestions ← lift (py_getitem data "page_size");
  quota_remaining ← lift (py_getitem data "quota_remaining");
  quota_max ← lift (py_getitem data "quota_max");
  __log_status quota_remaining quota_max nquestions tquestions;;
  loop_head questions
    {| page := page; data := data;
       nquestions := nquestions; tquestions := tquestions |}.

(** *** [get_questions], from a [yield] to the next one or the end *)
Definition get_questions_resume (self : t) (from_date : option datetime)
    (fr : frame) : St world (option (string * frame)) :=
  let url := questions_url self in
  (* questions = None *)
  has_more ← lift (py_getitem (data fr) "has_more");
  if py_truthy has_more then
    let page := page fr + 1 in
    backoff ← lift (py_get (data fr) "backoff");
    (if py_truthy backoff then
       emit (ELog DEBUG ("Expensive query. Wait " +:+ py_str backoff
                         +:+ " secs to send a new request"));;
       secs ← lift (py_float backoff);
       time_sleep secs
     else mret ());;
    payload ← lift (build_page_payload self page from_date);
    req ← fetch url payload;
    data ← lift (resp_json req);
    let questions := resp_text req in
    page_size ← lift (py_getitem data "page_size");
    nquestions ← lift (py_iadd (nquestions fr) page_size);
    quota_remaining ← lift (py_getitem data "quota_remaining");
    quota_max ← lift (py_getitem data "quota_max");
    __log_status quota_remaining quota_max nquestions (tquestions fr);;
    loop_head questions
      {| page := page; data := data;
         nquestions := nquestions; tquestions := tquestions fr |}
  else
    (* [questions] is [None]: the loop ends *)
    mret None.

(** One [next()] on the generator object. *)
Definition next (self : t) (from_date : option datetime) (g : gen) (w : world)
    : step * gen * world :=
  let run (body : St world (option (string * frame))) :=
    match body w with
    | (Ok (Some (questions, fr)), w') => (Yield questions, Suspended fr, w')
    | (Ok None, w') => (StopIteration, Closed, w')
    | (Err e, w') => (Raise e, Closed, w')
    end in
  match g with
  | Created => run (get_questions_start self from_date)
  | Suspended fr => run (get_questions_resume self from_date fr)
  | Closed => (StopIteration, Closed, w)
  end.

(** A consumer that keeps calling [next()] until the generator ends
    ([for page in client.get_questions(from_date)]): [None] when [fuel]
    resumptions were not enough, otherwise the exception that ended
    the iteration, if any, and the world reached. *)
Fixpoint consume (fuel : nat) (self : t) (from_date : option datetime)
    (g : gen) (w : world) : option (option exn * world) :=
  match fuel with
  | O => None
  | S fuel =>
      match next self from_date g w with
      | (Yield _, g', w') => consume fuel self from_date g' w'
      | (StopIteration, _, w') => Some (None, w')
      | (Raise e, _, w') => Some (Some e, w')
      end
  end.

Definition get_questions (fuel : nat) (self : t) (from_date : option datetime) :=
  consume fuel self from_date Created world0.

End Generator.

(** Projections of a trace. *)
Definition fetched (tr : list event) : list (gmap string json) :=
  omap (λ ev, match ev with EFetch _ p => Some p | _ => None end) tr.

Definition yielded (tr : list event) : list string :=
  omap (λ ev, match ev with EYield q => Some q | _ => None end) tr.

(** The trace without its log records. *)
Definition is_log (ev : event) : bool :=
  match ev with ELog _ _ => true | _ => false end.

Definition unlogged (tr : list event) : list event :=
  List.filter (λ ev, negb (is_log ev)) tr.

End Questions.

(** ** class StackExchange *)

Module StackExchange.

Section Backend.
Context `{PyRuntime} `{Perceval}.

Record t := {
  base : backend_t;                       (* state set up by [Backend.__init__] *)
  site : string;
  api_token : option string;
  access_token : option string;
  tagged : option string;
  max_questions : Z;
  client : option StackExchangeClient.t;
}.

Definition __init__ (site : string) (tagged api_token access_token : option string)
    (max_questions : Z) (tag : option string) (archive : option archive_t)
    (ssl_verify : bool) : result t :=
  let origin := site in
  if negb (str_truthy api_token) && str_truthy access_token then
    Err (BackendError "access_token is defined but api_token is not")
  else
    base ← Backend_init origin tag archive ssl_verify;
    mret {| base := base;
            site := site;
            api_token := api_token;
            access_token := access_token;
            tagged := tagged;
            max_questions := max_questions;
            client := None |}.

(** [fetch]: the category and the keyword arguments handed over to
    [Backend.fetch], which later passes [from_date] to [fetch_items]. *)
Definition fetch (category : string) (from_date : option datetime)
    : string * datetime :=
  let from_date :=
    match from_date with
    | None => DEFAULT_DATETIME
    | Some d => d
    end in
  let from_date := datetime_to_utc from_date in
  (category, from_date).

Definition has_archiving : bool := true.
Definition has_resuming : bool := true.

Definition metadata_id (item : json) : result string :=
  question_id ← py_getitem item "question_id";
  mret (py_str question_id).

Definition metadata_updated_on (item : json) : result pyfloat :=
  last_activity_date ← py_getitem item "last_activity_date";
  py_float last_activity_date.

Definition metadata_category (item : json) : string := CATEGORY_QUESTION.

(** [parse_questions]: the items the generator yields when it is
    iterated to its end, and the exception that ended it, if any. *)
Definition parse_questions (raw_page : string) : list json * option exn :=
  match json_loads raw_page with
  | Err e => ([], Some e)
  | Ok raw_questions =>
      match py_getitem raw_questions "items" with
      | Err e => ([], Some e)
      | Ok items =>
          match py_iter items with
          | Err e => ([], Some e)
          | Ok qs => (qs, None)
          end
      end
  end.

Definition _init_client (self : t) : StackExchangeClient.t :=
  StackExchangeClient.__init__ (site self) (tagged self) (api_token self)
    (access_token self) (max_questions self).

End Backend.

End StackExchange.

(** ** Vocabulary of the statements about pagination *)

Module Pagination.

Import StackExchangeClient Questions.

Section Envelope.
Context `{PyRuntime}.

(** The decoded envelope of a response ([None] when it does not decode). *)
Definition envelope (r : response) : json :=
  match resp_json r with
  | Ok d => d
  | Err _ => JNull
  end.

(** The truth value of the envelope's [has_more]. *)
Definition has_more_of (r : response) : bool :=
  match py_getitem (envelope r) "has_more" with
  | Ok v => py_truthy v
  | Err _ => false
  end.

(** The envelope's [backoff], [None] when the field is absent. *)
Definition backoff_of (r : response) : json :=
  match py_get (envelope r) "backoff" with
  | Ok b => b
  | Err _ => JNull
  end.

Definition is_int (v : option json) : bool :=
  match v with
  | Some (JInt _) => true
  | _ => false
  end.

(** [time.sleep] accepts the length [secs] when [n] transport calls have
    been made. *)
Definition sleepable (n : nat) (secs : pyfloat) : bool := is_ok (sleep_check n secs).

(** A backoff that is absent, null or zero, or a number of seconds that
    [float] converts and [time.sleep] accepts when [n] transport calls
    have been made. *)
Definition backoff_ok (n : nat) (b : json) : bool :=
  negb (py_truthy b) ||
  match py_float b with
  | Ok secs => sleepable n secs
  | Err _ => false
  end.

(** An envelope as the remote API documents it: an object with integer
    [total] and [page_size], the two quota fields, [has_more], and an
    optional [backoff], one that can be slept once the response, the
    [n]-th, has been received. *)
Definition well_formed (n : nat) (r : response) : bool :=
  match resp_json r with
  | Ok (JDict kvs) =>
      is_int (assoc "total" kvs) && is_int (assoc "page_size" kvs)
      && bool_decide (is_Some (assoc "quota_remaining" kvs))
      && bool_decide (is_Some (assoc "quota_max" kvs))
      && bool_decide (is_Some (assoc "has_more" kvs))
      && backoff_ok n (default JNull (assoc "backoff" kvs))
  | _ => false
  end.

(** The envelope fields read on the first page, [has_more] left aside. *)
Definition counters_ok (r : response) : bool :=
  match resp_json r with
  | Ok (JDict kvs) =>
      is_int (assoc "total" kvs) && is_int (assoc "page_size" kvs)
      && bool_decide (is_Some (assoc "quota_remaining" kvs))
      && bool_decide (is_Some (assoc "quota_max" kvs))
  | _ => false
  end.

(** The sleep a page's envelope asks for before the next request. *)
Definition backoff_sleep (r : response) : list event :=
  if py_truthy (backoff_of r) then
    match py_float (backoff_of r) with
    | Ok secs => [ESleep secs]
    | Err _ => []
    end
  else [].

(** The effects, log records aside, of fetching the pages [reqs] in
    turn after a page answered by [prev]. *)
Fixpoint schedule (url : string) (prev : option response)
    (reqs : list (gmap string json * response)) : list event :=
  match reqs with
  | [] => []
  | (p, r) :: rest =>
      from_option backoff_sleep [] prev
      ++ [EFetch url p; EYield (resp_text r)]
      ++ schedule url (Some r) rest
  end.
End Envelope.

Section Run.
Context `{PyRuntime} `{Perceval}.

(** The frame of a generator suspended after yielding page [k], which
    the transport answered with [r]. *)
Definition frame_ok (fr : frame) (r : response) (k : Z) : Prop :=
  page fr = k ∧ data fr = envelope r
  ∧ (∃ a, nquestions fr = JInt a) ∧ (∃ t, tquestions fr = JInt t).

(** The transport serves the pages [reqs] from request number [k] on:
    the [i]-th payload is the one built for page [k + i + 1], the
    transport answers it with the [i]-th response, whose envelope is
    well formed and whose body is not empty, and every page but the
    last announces a further one. *)
Definition serves (self : t) (from_date : option datetime) (k : nat)
    (reqs : list (gmap string json * response)) : Prop :=
  ∀ (i : nat) p r, reqs !! i = Some (p, r) →
    build_page_payload self (Z.of_nat (k + i) + 1) from_date = Ok p
    ∧ HttpClient_fetch (k + i)%nat (questions_url self) p = Ok r
    ∧ well_formed (S (k + i)) r = true
    ∧ resp_text r ≠ EmptyString
    ∧ ((S i < length reqs)%nat → has_more_of r = true).

(** Whatever is requested next, the transport answers with an empty body. *)
Definition blank_next (w : world) : Prop :=
  ∀ url p r, HttpClient_fetch (calls w) url p = Ok r → resp_text r = EmptyString.
End Run.

Definition is_transfer (ev : event) : bool :=
  match ev with
  | EFetch _ _ | EYield _ => true
  | _ => false
  end.

(** The transport calls and the yields of a trace, in order. *)
Definition transfers (tr : list event) : list event := List.filter is_transfer tr.

End Pagination.

(** ** A scripted run

    The two-page scenario of the remote API: page 1 announces a further
    page and a backoff of two seconds, page 2 is the last one. *)

Module Scenario.

Definition question (id updated : Z) : json :=
  JDict [("question_id", JInt id); ("last_activity_date", JInt updated)].

Definition doc1 : json :=
  JDict [("items", JList [question 1 1000]); ("has_more", JBool true);
         ("backoff", JInt 2); ("quota_remaining", JInt 9); ("quota_max", JInt 10);
         ("page_size", JInt 1); ("total", JInt 2)].

Definition doc2 : json :=
  JDict [("items", JList [question 2 2000]); ("has_more", JBool false);
         ("quota_remaining", JInt 8); ("quota_max", JInt 10);
         ("page_size", JInt 1); ("total", JInt 2)].

(** A compact JSON rendering, enough for the documents above (which hold
    no float: one would be printed as a placeholder). *)
Definition dquote : string := String (Ascii.ascii_of_nat 34) EmptyString.

Fixpoint dumps (v : json) : string :=
  match v with
  | JNull => "null"
  | JBool true => "true"
  | JBool false => "false"
  | JInt n => pretty n
  | JFloat _ => "0.0"
  | JStr s => dquote +:+ s +:+ dquote
  | JList l =>
      "[" +:+ String.concat "," ((fix go (l : list json) : list string :=
                                    match l with
                                    | [] => []
                                    | x :: xs => dumps x :: go xs
                                    end) l) +:+ "]"
  | JDict kvs =>
      "{" +:+ String.concat "," ((fix go (kvs : list (string * json)) : list string :=
                                    match kvs with
                                    | [] => []
                                    | (k, x) :: rest =>
                                        (dquote +:+ k +:+ dquote +:+ ":" +:+ dumps x) :: go rest
                                    end) kvs) +:+ "}"
  end.

Definition page1 : response := {| resp_text := dumps doc1; resp_json := Ok doc1 |}.
Definition page2 : response := {| resp_text := dumps doc2; resp_json := Ok doc2 |}.

(** A decoder that knows the two documents and rejects anything else. *)
#[local] Instance runtime : PyRuntime := {|
  json_loads s :=
    if String.eqb s (dumps doc1) then Ok doc1
    else if String.eqb s (dumps doc2) then Ok doc2
    else Err JSONDecodeError;
  float_of_str _ := Err ValueError;
  py_repr v := dumps v;
  nanosleep _ _ := Ok ();
|}.

(** A transport that replays a list of responses in order, and a base
    initializer that accepts every configuration. *)
Definition replay (responses : list response) : Perceval := {|
  archive_t := unit;
  backend_t := string * option string * bool;
  Backend_init origin tag _ ssl_verify := Ok (origin, tag, ssl_verify);
  HttpClient_fetch n _ _ :=
    match responses !! n with
    | Some r => Ok r
    | None => Err (RequestException "no response left")
    end;
|}.

Definition client : StackExchangeClient.t :=
  StackExchangeClient.__init__ "stackoverflow" (Some "python") (Some "aaa") None 1.

(** 2016-03-02T00:00:00Z *)
Definition since : datetime := {| micros := 1456876800000000 |}.

(** Half a second before the epoch. *)
Definition before_epoch : datetime := {| micros := -500000 |}.

(** The payload the client builds for a page when no date is given. *)
Definition payload (page : Z) : gmap string json :=
  match StackExchangeClient.build_page_payload client page None with
  | Ok p => p
  | Err _ => ∅
  end.

Definition pages : list (gmap string json * response) :=
  [(payload 1, page1); (payload 2, page2)].

(** A store holding one live request payload, at address 1. *)
Definition live_payload : gmap string json :=
  {[ "page" := JInt 1; "site" := JStr "stackoverflow";
     "key" := JStr "aaa"; "access_token" := JStr "tok" ]}.

Definition store0 : gmap positive (gmap string json) := {[ 1%positive := live_payload ]}.

End Scenario.


(** ** Vocabulary of the statements about single resumptions *)

Module Resumption.

Import StackExchangeClient Questions Pagination.

(** The projection of a trace on its sleeps. *)
Definition slept (tr : list event) : list pyfloat :=
  omap (λ ev, match ev with ESleep s => Some s | _ => None end) tr.

(** The page a generator requests when it is resumed. *)
Definition next_page (g : gen) : Z :=
  match g with
  | Created => 1
  | Suspended fr => page fr + 1
  | Closed => 0
  end.

(** What [next] returns for the outcome of a generator body. *)
Definition step_of (res : result (option (string * frame))) : step * gen :=
  match res with
  | Ok (Some (q, fr)) => (Yield q, Suspended fr)
  | Ok None => (StopIteration, Closed)
  | Err e => (Raise e, Closed)
  end.

Section Resume.
Context `{PyRuntime} `{Perceval}.

(** The envelope held by a suspended generator asks for a further page. *)
Definition wants_more (fr : frame) : bool :=
  match py_getitem (data fr) "has_more" with
  | Ok has_more => py_truthy has_more
  | Err _ => false
  end.

(** The envelope's backoff, if any, can be slept when [n] transport calls
    have been made. *)
Definition may_sleep (n : nat) (fr : frame) : bool :=
  match py_get (data fr) "backoff" with
  | Ok backoff => backoff_ok n backoff
  | Err _ => false
  end.

(** A generator in state [g] gets as far as building the next payload
    when [n] transport calls have been made. *)
Definition ready (n : nat) (g : gen) : bool :=
  match g with
  | Created => true
  | Suspended fr => wants_more fr && may_sleep n fr
  | Closed => false
  end.

(** The sleep a suspended generator takes before its next request. *)
Definition frame_sleep (g : gen) : list event :=
  match g with
  | Suspended fr =>
      match py_get (data fr) "backoff" with
      | Ok backoff =>
          if py_truthy backoff then
            match py_float backoff with
            | Ok secs => [ESleep secs]
            | Err _ => []
            end
          else []
      | Err _ => []
      end
  | _ => []
  end.

(** Where request number [c], made with payload [p] for page [k], leads:
    an exception of the transport or of [json()] is raised as it is;
    otherwise either the body is yielded, non-empty, and the generator is
    suspended on page [k] with the decoded envelope, or nothing is yielded
    and the generator is closed.  [evs] are the effects after the call. *)
Definition landed (self : t) (k : Z) (c : nat) (p : gmap string json)
    (st : step) (g' : gen) (evs : list event) : Prop :=
  match HttpClient_fetch c (questions_url self) p with
  | Err e => st = Raise e ∧ g' = Closed ∧ evs = []
  | Ok r =>
      match resp_json r with
      | Err e => st = Raise e ∧ g' = Closed ∧ evs = []
      | Ok d =>
          (∃ fr, st = Yield (resp_text r) ∧ g' = Suspended fr
                 ∧ page fr = k ∧ data fr = d
                 ∧ transfers evs = [EYield (resp_text r)]
                 ∧ resp_text r ≠ EmptyString)
          ∨ ((∀ q, st ≠ Yield q) ∧ g' = Closed ∧ transfers evs = [])
      end
  end.

(** One resumption from [g] in world [w], ending with [st] in state [g']
    and world [w']: either no request is made, nothing is yielded and the
    generator is closed (it was not ready, or the payload could not be
    built); or exactly one request is made, for the next page, after the
    sleep the previous envelope asked for. *)
Definition one_call (self : t) (from_date : option datetime) (g : gen) (w : world)
    (st : step) (g' : gen) (w' : world) : Prop :=
  (∃ pre, w' = {| calls := calls w; trace := trace w ++ pre |}
          ∧ (∀ q, st ≠ Yield q) ∧ g' = Closed ∧ transfers pre = []
          ∧ (ready (calls w) g = false
             ∨ ∃ e, build_page_payload self (next_page g) from_date = Err e
                    ∧ st = Raise e))
  ∨ ∃ p pre evs,
      ready (calls w) g = true
      ∧ build_page_payload self (next_page g) from_date = Ok p
      ∧ unlogged pre = frame_sleep g
      ∧ w' = {| calls := S (calls w);
                trace := (trace w ++ pre) ++ EFetch (questions_url self) p :: evs |}
      ∧ landed self (next_page g) (calls w) p st g' evs.

(** A consumer that takes at most [n] pages and then leaves the generator
    suspended ([itertools.islice(pages, n)], or a loop left by [break]). *)
Fixpoint take_pages (n : nat) (self : t) (from_date : option datetime)
    (g : gen) (w : world) : list string * gen * world :=
  match n with
  | O => ([], g, w)
  | S n =>
      match next self from_date g w with
      | (Yield q, g', w') =>
          let '(qs, g'', w'') := take_pages n self from_date g' w' in
          (q :: qs, g'', w'')
      | (_, g', w') => ([], g', w')
      end
  end.
End Resume.

End Resumption.


(** ** Vocabulary of the statements about arbitrary runs *)

Module Runs.

Import StackExchangeClient Questions Pagination Resumption.

Section Sound.
Context `{PyRuntime} `{Perceval}.

(** What holds of every state a run reaches from a fresh generator,
    whatever the transport does: the calls so far were numbered and built
    for pages 1, 2, ... in turn; every page yielded is the non-empty body
    of the response to the call of the same rank, whose envelope decoded;
    and a live generator has yielded every page it has requested. *)
Definition sound (self : t) (from_date : option datetime) (g : gen) (w : world) : Prop :=
  length (fetched (trace w)) = calls w
  ∧ (∀ (i : nat) p, fetched (trace w) !! i = Some p →
       build_page_payload self (Z.of_nat i + 1) from_date = Ok p)
  ∧ (∀ (i : nat) q, yielded (trace w) !! i = Some q →
       q ≠ EmptyString
       ∧ ∃ p r, fetched (trace w) !! i = Some p
                ∧ HttpClient_fetch i (questions_url self) p = Ok r
                ∧ resp_text r = q ∧ is_ok (resp_json r) = true)
  ∧ match g with
    | Created => calls w = 0%nat ∧ yielded (trace w) = []
    | Suspended fr =>
        page fr = Z.of_nat (calls w)
        ∧ length (yielded (trace w)) = calls w
        ∧ ∃ p r, last (fetched (trace w)) = Some p
                 ∧ HttpClient_fetch (pred (calls w)) (questions_url self) p = Ok r
                 ∧ resp_json r = Ok (data fr)
    | Closed =>
        (length (yielded (trace w)) <= calls w <= S (length (yielded (trace w))))%nat
    end.
End Sound.

End Runs.

(** ** [StackExchange.fetch_items] *)

Module Fetching.

Import StackExchangeClient Questions.

Section FetchItems.
Context `{PyRuntime} `{Perceval}.

(** [str(from_date)], which only enters the log record. *)
Variable datetime_str : option datetime → string.

(** The loop over the pages,
    [for whole_page in whole_pages: yield from self.parse_questions(whole_page)],
    iterated to its end: the items yielded, the exception that ended the
    iteration, if any, and the world reached; [None] when [fuel] pages
    were not enough.  An exception of [parse_questions] leaves the
    generator of pages suspended. *)
Fixpoint parse_pages (fuel : nat) (client : StackExchangeClient.t)
    (from_date : option datetime) (g : gen) (w : world)
    : option (list json * option exn * world) :=
  match fuel with
  | O => None
  | S fuel =>
      match next client from_date g w with
      | (Yield whole_page, g', w') =>
          match StackExchange.parse_questions whole_page with
          | (items, Some e) => Some (items, Some e, w')
          | (items, None) =>
              match parse_pages fuel client from_date g' w' with
              | Some (rest, e, w'') => Some (items ++ rest, e, w'')
              | None => None
              end
          end
      | (StopIteration, _, w') => Some ([], None, w')
      | (Raise e, _, w') => Some ([], Some e, w')
      end
  end.

(** [fetch_items], iterated to its end.  [kwargs] are the keyword
    arguments; [self.client] is [None] until [Backend.fetch] sets it. *)
Definition fetch_items (fuel : nat) (self : StackExchange.t) (category : string)
    (kwargs : gmap string (option datetime))
    : option (list json * option exn * world) :=
  match kwargs !! "from_date" with
  | None => Some ([], Some (KeyError "from_date"), world0)
  | Some from_date =>
      let w :=
        (emit (ELog INFO ("Looking for questions at site '" +:+ StackExchange.site self
                          +:+ "', with tag '"
                          +:+ py_str (json_of_str (StackExchange.tagged self))
                          +:+ "' and updated from '" +:+ datetime_str from_date
                          +:+ "'")) world0).2 in
      match StackExchange.client self with
      | None => Some ([], Some AttributeError, w)
      | Some client => parse_pages fuel client from_date Created w
      end
  end.
End FetchItems.

End Fetching.

(** ** Faulty transports and documents *)

Module Faults.

Import Scenario.

(** The document [doc] without its entry [k]. *)
Definition without (k : string) (doc : json) : json :=
  match doc with
  | JDict kvs => JDict (List.filter (λ kv, negb (String.eqb kv.1 k)) kvs)
  | _ => doc
  end.

Definition page_of (doc : json) : response :=
  {| resp_text := dumps doc; resp_json := Ok doc |}.

(** A body that is no JSON document. *)
Definition garbled : response :=
  {| resp_text := "<html>"; resp_json := Err JSONDecodeError |}.

(** A response with an empty body, as the transport builds it: [json()]
    decodes the text. *)
Definition empty_body : response :=
  {| resp_text := EmptyString; resp_json := @json_loads Scenario.runtime EmptyString |}.

(** Page 1 with a negative backoff. *)
Definition hasty_doc : json :=
  JDict [("items", JList [question 1 1000]); ("has_more", JBool true);
         ("backoff", JInt (-1)); ("quota_remaining", JInt 9); ("quota_max", JInt 10);
         ("page_size", JInt 1); ("total", JInt 2)].

(** A page whose [items] is an object. *)
Definition keyed_doc : json :=
  JDict [("items", JDict [("a", JInt 1); ("b", JInt 2)]); ("has_more", JBool false)].

(** A decoder that knows the documents [docs] and rejects anything else. *)
Definition decoder (docs : list json) : PyRuntime := {|
  json_loads s :=
    match List.find (λ d, String.eqb s (dumps d)) docs with
    | Some d => Ok d
    | None => Err JSONDecodeError
    end;
  float_of_str _ := Err ValueError;
  py_repr v := dumps v;
  nanosleep _ _ := Ok ();
|}.

#[local] Instance runtime : PyRuntime :=
  decoder [doc1; doc2; without "items" doc1; keyed_doc].

(** A transport that answers every request with [r]. *)
Definition forever (r : response) : Perceval := {|
  archive_t := unit;
  backend_t := string * option string * bool;
  Backend_init origin tag _ ssl_verify := Ok (origin, tag, ssl_verify);
  HttpClient_fetch _ _ _ := Ok r;
|}.

(** A client that holds an access token. *)
Definition authorized : StackExchangeClient.t :=
  StackExchangeClient.__init__ "stackoverflow" (Some "python") (Some "aaa") (Some "tok") 1.

(** The payload [self] builds for a page. *)
Definition payload_of (self : StackExchangeClient.t) (page : Z)
    (from_date : option datetime) : gmap string json :=
  match StackExchangeClient.build_page_payload self page from_date with
  | Ok p => p
  | Err _ => ∅
  end.

(** A backend as [Backend.fetch] leaves it: its client is set. *)
Definition backend (responses : list response) : @StackExchange.t (replay responses) :=
  @StackExchange.Build_t (replay responses)
    ("stackoverflow", None, true) "stackoverflow" (Some "aaa") None (Some "python") 1
    (Some client).

(** The keyword arguments [fetch] hands over when no date is known to
    the client. *)
Definition kwargs : gmap string (option datetime) := {[ "from_date" := None ]}.

Definition datetime_str (d : option datetime) : string :=
  match d with
  | None => "None"
  | Some _ => "1970-01-01 00:00:00+00:00"
  end.

End Faults.

(** * Properties *)

Import StackExchangeClient Questions Pagination.

(** ** Floats

    An [int] of magnitude at most [2^53] converts to the float of exactly
    its value; the quotient of two floats of the same sign is not
    negative. *)

Lemma digits2_pos_size m : digits2_pos m = Pos.size m.
Proof. induction m; simpl; congruence. Qed.

Lemma digits2_pos_iter_xO m k :
  digits2_pos (Pos.iter xO m k) = (digits2_pos m + k)%positive.
Proof.
  induction k using Pos.peano_ind.
  - simpl. lia.
  - rewrite Pos.iter_succ. simpl. rewrite IHk. lia.
Qed.

Lemma Zpos_iter_xO m k : Z.pos (Pos.iter xO m k) = Z.pos m * 2 ^ Z.pos k.
Proof.
  induction k using Pos.peano_ind.
  - simpl. lia.
  - rewrite Pos.iter_succ, Pos2Z.inj_xO, IHk, Pos2Z.inj_succ, Z.pow_succ_r by lia. lia.
Qed.

Lemma digits2_pos_bound m : Z.pos m < 2 ^ 53 → (Z.pos (digits2_pos m) <= 53).
Proof.
  intros Hm. rewrite digits2_pos_size.
  pose proof (Pos.size_le m) as Hle.
  destruct (Z_le_gt_dec (Z.pos (Pos.size m)) 53) as [|Hgt]; [done|exfalso].
  assert (2 ^ 54 <= Z.pos (2 ^ Pos.size m)).
  { rewrite Pos2Z.inj_pow. apply Z.pow_le_mono_r; lia. }
  assert (Z.pos (2 ^ Pos.size m) <= Z.pos m~0) by lia.
  change (2^54) with (2 * 2^53) in *. lia.
Qed.

Lemma binary_round_aux_canonical s mz ez :
  Z.pos (digits2_pos mz) = 53 → -1074 <= ez <= 971 →
  binary_round_aux fprec femax s (Z.pos mz) ez loc_Exact = S754_finite s mz ez.
Proof.
  intros Hd He.
  assert (fexp fprec femax (Zdigits2 (Z.pos mz) + ez) - ez = 0) as Hz.
  { unfold Zdigits2, fexp, emin, fprec, femax. lia. }
  unfold binary_round_aux, shr_fexp.
  rewrite Hz. cbn [shr shr_record_of_loc shr_m loc_of_shr_record round_nearest_even].
  rewrite Hz. cbn [shr shr_record_of_loc shr_m].
  unfold fprec, femax.
  replace (ez <=? 1024 - 53) with true by (symmetry; apply Z.leb_le; lia).
  done.
Qed.

Lemma binary_round_small s m :
  Z.pos m < 2 ^ 53 →
  ∃ m' e', binary_round fprec femax s m 0 = S754_finite s m' e'
           ∧ e' <= 0 ∧ Z.pos m' = Z.pos m * 2 ^ (- e').
Proof.
  intros Hm. pose proof (digits2_pos_bound m Hm) as Hd.
  unfold binary_round, shl_align.
  assert (fexp fprec femax (Z.pos (digits2_pos m) + 0) = Z.pos (digits2_pos m) - 53) as ->.
  { unfold fexp, emin, fprec, femax. lia. }
  destruct (Z.pos (digits2_pos m) - 53 - 0) as [|k|k] eqn:Hk; [|lia|].
  - rewrite binary_round_aux_canonical by lia.
    exists m, 0. split; [done|]. simpl. lia.
  - rewrite binary_round_aux_canonical.
    + eexists _, _. split; [done|]. split; [lia|].
      rewrite Zpos_iter_xO. f_equal. f_equal. lia.
    + rewrite digits2_pos_iter_xO. lia.
    + lia.
Qed.

(** [float(n) == n] for every [n] with [|n| <= 2^53]. *)
Lemma float_of_Z_exact (n : Z) :
  Z.abs n <= 2 ^ 53 → ∃ x, float_of_Z n = Ok x ∧ float_eq_Z x n = true.
Proof.
  intros Hn.
  destruct (Z.eq_dec (Z.abs n) (2 ^ 53)) as [Heq|Hne].
  { destruct (Z.abs_eq_or_opp n) as [Hn'|Hn'].
    - rewrite Hn' in Heq. subst n. eexists. split; [vm_compute; reflexivity|]. by vm_compute.
    - assert (n = - 2 ^ 53) as -> by lia.
      eexists. split; [vm_compute; reflexivity|]. by vm_compute. }
  unfold float_of_Z, binary_normalize.
  destruct n as [|m|m].
  - eexists. split; [done|]. done.
  - destruct (binary_round_small false m) as (m' & e' & -> & He & Hm'); [lia|].
    eexists. split; [done|]. unfold float_eq_Z.
    destruct (0 <=? e') eqn:Hle.
    + apply Z.leb_le in Hle. assert (e' = 0) as -> by lia.
      apply Z.eqb_eq. cbn [cond_Zopp]. rewrite Hm'. change (- 0) with 0. lia.
    + apply Z.eqb_eq. cbn [cond_Zopp]. lia.
  - destruct (binary_round_small true m) as (m' & e' & -> & He & Hm'); [lia|].
    eexists. split; [done|]. unfold float_eq_Z.
    destruct (0 <=? e') eqn:Hle.
    + apply Z.leb_le in Hle. assert (e' = 0) as -> by lia.
      apply Z.eqb_eq. cbn [cond_Zopp]. rewrite Hm'. change (- 0) with 0. lia.
    + apply Z.eqb_eq. cbn [cond_Zopp]. rewrite Hm'. lia.
Qed.




(** ** The request payload

    What [__build_payload] stores under [min] and under [page]. *)

Lemma build_page_payload_min self page from_date p :
  build_page_payload self page from_date = Ok p →
  p !! PMIN = match from_date with
              | Some d => match int_of_float (timestamp d) with
                          | Ok ts => Some (JInt ts)
                          | Err _ => None
                          end
              | None => None
              end.
Proof.
  unfold build_page_payload, __build_payload.
  destruct from_date as [d|]; cbn [mbind result_bind mret result_ret].
  - destruct (int_of_float (timestamp d)); [|done].
    cbn [mbind result_bind mret result_ret].
    destruct (str_truthy (access_token self)); intros [= <-].
    + rewrite lookup_insert_ne by done. by rewrite lookup_insert_eq.
    + by rewrite lookup_insert_eq.
  - destruct (str_truthy (access_token self)); intros [= <-].
    + rewrite lookup_insert_ne by done. done.
    + done.
Qed.





(** Before the epoch, truncation toward zero is not the floor. *)
Example payload_min_truncates :
  ∃ p, build_page_payload Scenario.client 1 (Some Scenario.before_epoch) = Ok p
       ∧ p !! PMIN = Some (JInt 0)
       ∧ float_floor (timestamp Scenario.before_epoch) = Some (-1).
Proof. eexists. split; [reflexivity|]. by vm_compute. Qed.

(** Far in the future the float of [timestamp()] rounds up to the next
    second: [min] is then one more than the whole seconds of the instant
    (here 2514-05-30T01:53:04.999999Z). *)
Example payload_min_rounds_up :
  ∃ p, build_page_payload Scenario.client 1 (Some {| micros := 17179869184999999 |}) = Ok p
       ∧ p !! PMIN = Some (JInt 17179869185)
       ∧ 17179869184999999 `div` 1000000 = 17179869184.
Proof. eexists. split; [reflexivity|]. by vm_compute. Qed.

(** ** Archive sanitization

    The store after [sanitize_for_archive]: the payload object has lost
    the two credentials and nothing else has changed. *)

Lemma deref_insert_eq (h : store) p d : deref (<[p := d]> h) p = d.
Proof. unfold deref. by rewrite lookup_insert_eq. Qed.

Lemma deref_insert_ne (h : store) p q d : p ≠ q → deref (<[p := d]> h) q = deref h q.
Proof. intros. unfold deref. by rewrite lookup_insert_ne. Qed.

Lemma sanitize_for_archive_spec {H : Type} (url : string) (headers : H) (p : loc) (h : store) :
  ∃ h', sanitize_for_archive url headers p h = (Ok (url, headers, p), h')
        ∧ deref h' p = delete PACCESSTOKEN (delete PKEY (deref h p))
        ∧ ∀ q, q ≠ p → h' !! q = h !! q.
Proof.
  unfold sanitize_for_archive, mbind, St_bind, mret, St_ret, dict_contains, dict_pop.
  destruct (deref h p !! PKEY) as [k|] eqn:Hk; simpl.
  - rewrite Hk, !deref_insert_eq.
    destruct (delete PKEY (deref h p) !! PACCESSTOKEN) as [a|] eqn:Ha; simpl.
    + rewrite !deref_insert_eq, Ha. eexists; split; [done|]. split.
      * by rewrite !deref_insert_eq.
      * intros q Hq. by rewrite !lookup_insert_ne.
    + eexists; split; [done|]. split.
      * rewrite deref_insert_eq. symmetry. by apply delete_id.
      * intros q Hq. by rewrite lookup_insert_ne.
  - destruct (deref h p !! PACCESSTOKEN) as [a|] eqn:Ha; simpl.
    + rewrite Ha. eexists; split; [done|]. split.
      * rewrite deref_insert_eq. f_equal. symmetry. by apply delete_id.
      * intros q Hq. by rewrite lookup_insert_ne.
    + exists h. split; [done|]. split; [|done].
      rewrite (delete_id (deref h p) PKEY) by done. by rewrite delete_id.
Qed.

(** C5.  The payload [sanitize_for_archive] returns holds neither [key]
    nor [access_token], whether or not they were there; the URL and the
    headers come back as they went in. *)
Theorem sanitize_for_archive_strips_credentials {H : Type}
    (url : string) (headers : H) (p : loc) (h : store) :
  ∃ h', sanitize_for_archive url headers p h = (Ok (url, headers, p), h')
        ∧ deref h' p !! PKEY = None
        ∧ deref h' p !! PACCESSTOKEN = None.
Proof.
  destruct (sanitize_for_archive_spec url headers p h) as (h' & Hrun & Hp & _).
  exists h'. split; [done|]. rewrite Hp. split.
  - rewrite lookup_delete_ne by done. apply lookup_delete_eq.
  - apply lookup_delete_eq.
Qed.

(** C1, as the code has it.  [sanitize_for_archive] works on the payload
    object it is given and returns that same object: after the call the
    object holds neither [key] nor [access_token], every other entry of it
    is unchanged, and no other object of the store is touched. *)
Theorem sanitize_for_archive_in_place {H : Type}
    (url : string) (headers : H) (p : loc) (h : store) :
  ∃ h', sanitize_for_archive url headers p h = (Ok (url, headers, p), h')
        ∧ (∀ k, deref h' p !! k
                = if decide (k = PKEY ∨ k = PACCESSTOKEN) then None else deref h p !! k)
        ∧ (∀ q, q ≠ p → h' !! q = h !! q).
Proof.
  destruct (sanitize_for_archive_spec url headers p h) as (h' & Hrun & Hp & Hq).
  exists h'. split; [done|]. split; [|done].
  intros k. rewrite Hp. case_decide as Hk.
  - destruct Hk as [-> | ->].
    + rewrite lookup_delete_ne by done. apply lookup_delete_eq.
    + apply lookup_delete_eq.
  - rewrite !lookup_delete_ne by naive_solver. done.
Qed.

(** C1 as stated fails: the payload passed in loses its credentials. *)
Lemma sanitize_for_archive_mutates :
  ¬ (∀ k v,
       deref Scenario.store0 1 !! k = Some v →
       deref (sanitize_for_archive (questions_url Scenario.client) ()
                1%positive Scenario.store0).2 1 !! k = Some v).
Proof.
  intros Hkept. specialize (Hkept PKEY (JStr "aaa") eq_refl).
  vm_compute in Hkept. discriminate.
Qed.

(** ** Pagination *)

(** *** Traces and their projections *)

Lemma unlogged_app a b : unlogged (a ++ b) = unlogged a ++ unlogged b.
Proof. apply List.filter_app. Qed.

Lemma transfers_app a b : transfers (a ++ b) = transfers a ++ transfers b.
Proof. apply List.filter_app. Qed.

Lemma fetched_app a b : fetched (a ++ b) = fetched a ++ fetched b.
Proof. apply omap_app. Qed.

Lemma yielded_app a b : yielded (a ++ b) = yielded a ++ yielded b.
Proof. apply omap_app. Qed.

Lemma transfers_unlogged tr : transfers (unlogged tr) = transfers tr.
Proof.
  unfold transfers, unlogged.
  induction tr as [|[] tr IH]; cbn in *; by rewrite ?IH.
Qed.

Lemma fetched_transfers tr : fetched (transfers tr) = fetched tr.
Proof.
  unfold transfers, fetched.
  induction tr as [|[] tr IH]; cbn in *; by rewrite ?IH.
Qed.

Lemma yielded_transfers tr : yielded (transfers tr) = yielded tr.
Proof.
  unfold transfers, yielded.
  induction tr as [|[] tr IH]; cbn in *; by rewrite ?IH.
Qed.

Lemma unlogged_nil_transfers tr : unlogged tr = [] → transfers tr = [].
Proof. intros Hu. by rewrite <- transfers_unlogged, Hu. Qed.

Lemma transfers_nil_yielded tr : transfers tr = [] → yielded tr = [].
Proof. intros Ht. by rewrite <- yielded_transfers, Ht. Qed.

Lemma transfers_nil_fetched tr : transfers tr = [] → fetched tr = [].
Proof. intros Ht. by rewrite <- fetched_transfers, Ht. Qed.

Section Pagination.
Context `{PyRuntime} `{Perceval}.

Lemma transfers_backoff_sleep r : transfers (backoff_sleep r) = [].
Proof.
  unfold backoff_sleep. destruct (py_truthy _); [|done]. by destruct (py_float _).
Qed.

(** *** Envelopes *)

Lemma well_formed_inv n r :
  well_formed n r = true →
  ∃ kvs total ps qr qm hm,
    resp_json r = Ok (JDict kvs)
    ∧ assoc "total" kvs = Some (JInt total)
    ∧ assoc "page_size" kvs = Some (JInt ps)
    ∧ assoc "quota_remaining" kvs = Some qr
    ∧ assoc "quota_max" kvs = Some qm
    ∧ assoc "has_more" kvs = Some hm
    ∧ backoff_ok n (default JNull (assoc "backoff" kvs)) = true.
Proof.
  unfold well_formed. destruct (resp_json r) as [[| | | | | |kvs]|]; try done.
  intros Hwf. repeat (apply andb_prop in Hwf as [Hwf ?]).
  destruct (assoc "total" kvs) as [[]|] eqn:?; try done.
  destruct (assoc "page_size" kvs) as [[]|] eqn:?; try done.
  repeat match goal with
         | Hb : bool_decide _ = true |- _ => apply bool_decide_eq_true in Hb as [? ?]
         end.
  repeat eexists; eauto.
Qed.

Lemma counters_ok_inv r :
  counters_ok r = true →
  ∃ kvs total ps qr qm,
    resp_json r = Ok (JDict kvs)
    ∧ assoc "total" kvs = Some (JInt total)
    ∧ assoc "page_size" kvs = Some (JInt ps)
    ∧ assoc "quota_remaining" kvs = Some qr
    ∧ assoc "quota_max" kvs = Some qm.
Proof.
  unfold counters_ok. destruct (resp_json r) as [[| | | | | |kvs]|]; try done.
  intros Hwf. repeat (apply andb_prop in Hwf as [Hwf ?]).
  destruct (assoc "total" kvs) as [[]|] eqn:?; try done.
  destruct (assoc "page_size" kvs) as [[]|] eqn:?; try done.
  repeat match goal with
         | Hb : bool_decide _ = true |- _ => apply bool_decide_eq_true in Hb as [? ?]
         end.
  repeat eexists; eauto.
Qed.

Lemma well_formed_counters n r : well_formed n r = true → counters_ok r = true.
Proof.
  unfold well_formed, counters_ok.
  destruct (resp_json r) as [[| | | | | |kvs]|]; try done.
  intros Hwf. repeat (apply andb_prop in Hwf as [Hwf ?]).
  repeat (apply andb_true_intro; split); done.
Qed.

(** *** Effects of the helpers *)

Lemma log_status_quiet qr qm ps t w :
  ∃ res logs, __log_status qr qm ps t w
              = (res, {| calls := calls w; trace := trace w ++ logs |})
              ∧ unlogged logs = [].
Proof.
  unfold __log_status, mbind, St_bind, emit, lift.
  cbn [calls trace].
  destruct (negb (py_eq t (JInt 0))); [destruct (py_min ps t)|]; cbn [calls trace].
  - eexists _, [_; _]. split; [by rewrite <- app_assoc|done].
  - by eexists _, [_].
  - eexists _, [_; _]. split; [by rewrite <- app_assoc|done].
Qed.

Lemma log_status_logs qr qm a t w :
  ∃ logs, __log_status qr qm (JInt a) (JInt t) w
          = (Ok (), {| calls := calls w; trace := trace w ++ logs |})
          ∧ unlogged logs = [].
Proof.
  unfold __log_status, mbind, St_bind, emit, lift, py_min, py_eq, py_lt, as_int.
  cbn [mbind result_bind mret result_ret negb calls trace].
  destruct (t =? 0); cbn [negb calls trace].
  - eexists [_; _]. split; [by rewrite <- app_assoc|done].
  - eexists [_; _]. split; [by rewrite <- app_assoc|done].
Qed.

(** [time.sleep] on some lengths: two seconds are two thousand million
    nanoseconds and a tenth of a nanosecond counts as one; ten thousand
    million seconds overflow, whatever their sign, and so does an
    infinity; a negative length within the range is a [ValueError]. *)
Example sleep_ns_samples :
  sleep_ns (S754_finite false 4503599627370496 (-51)) = Ok 2000000000
  ∧ sleep_ns (S754_finite false 7737125245533627 (-86)) = Ok 1
  ∧ sleep_ns (S754_finite false 10000000000 0) = Err OverflowError
  ∧ sleep_ns (S754_finite true 10000000000 0) = Err OverflowError
  ∧ sleep_ns (S754_infinity true) = Err OverflowError
  ∧ sleep_ns (S754_finite true 1 0) = Err ValueError
  ∧ sleep_ns S754_nan = Err ValueError.
Proof. by vm_compute. Qed.

Lemma time_sleep_sleepable secs w :
  sleepable (calls w) secs = true →
  time_sleep secs w = (Ok (), {| calls := calls w; trace := trace w ++ [ESleep secs] |}).
Proof.
  unfold sleepable, time_sleep. by destruct (sleep_check (calls w) secs).
Qed.

Lemma time_sleep_quiet secs w :
  ∃ res evs, time_sleep secs w = (res, {| calls := calls w; trace := trace w ++ evs |})
             ∧ transfers evs = [].
Proof.
  unfold time_sleep. destruct (sleep_check (calls w) secs).
  - by eexists _, [_].
  - eexists _, []. rewrite app_nil_r. by destruct w.
Qed.

(** *** One resumption of the generator *)

Ltac after_fetch Hj Hlogs :=
  match goal with
  | |- context [__log_status ?qr ?qm (JInt ?a) (JInt ?t) ?w0] =>
      destruct (log_status_logs qr qm a t w0) as (logs & -> & Hlogs)
  end;
  unfold loop_head, mbind, St_bind, emit, mret, St_ret;
  match goal with
  | |- context [Some (_, ?fr0)] => exists fr0
  end;
  destruct (negb (String.eqb (resp_text _) EmptyString));
  cbn [calls trace];
  (eexists _; split; [by rewrite <- ?app_assoc|]; split;
   [ rewrite ?unlogged_app, Hlogs; by rewrite ?app_nil_r
   | unfold frame_ok, envelope; rewrite Hj; cbn; repeat split; eauto ]).

Lemma start_step self from_date w p r :
  build_page_payload self 1 from_date = Ok p →
  HttpClient_fetch (calls w) (questions_url self) p = Ok r →
  counters_ok r = true →
  ∃ fr evs,
    get_questions_start self from_date w
    = (Ok (if negb (String.eqb (resp_text r) EmptyString)
           then Some (resp_text r, fr) else None),
       {| calls := S (calls w); trace := trace w ++ evs |})
    ∧ unlogged evs
      = EFetch (questions_url self) p
        :: (if negb (String.eqb (resp_text r) EmptyString)
            then [EYield (resp_text r)] else [])
    ∧ frame_ok fr r 1.
Proof.
  intros Hp Hr (kvs & total & ps & qr & qm & Hj & Ht & Hps & Hqr & Hqm)%counters_ok_inv.
  unfold get_questions_start, mbind, St_bind, lift, fetch.
  rewrite Hp, Hr, Hj. cbn [py_getitem calls trace].
  rewrite Ht, Hps, Hqr, Hqm.
  after_fetch Hj Hlogs.
Qed.

Lemma resume_stops self from_date fr r0 k n w :
  frame_ok fr r0 k → well_formed n r0 = true → has_more_of r0 = false →
  get_questions_resume self from_date fr w = (Ok None, w).
Proof.
  intros (_ & Hdata & _) (kvs & _ & _ & _ & _ & hm & Hj & _ & _ & _ & _ & Hhm & _)%well_formed_inv.
  unfold has_more_of, envelope in *. rewrite Hj in *.
  unfold get_questions_resume, mbind, St_bind, lift.
  rewrite Hdata. cbn [py_getitem] in *. rewrite Hhm in *. by intros ->.
Qed.

Lemma resume_step self from_date fr r0 k w p r :
  frame_ok fr r0 k → well_formed (calls w) r0 = true → has_more_of r0 = true →
  build_page_payload self (k + 1) from_date = Ok p →
  HttpClient_fetch (calls w) (questions_url self) p = Ok r →
  counters_ok r = true →
  ∃ fr' evs,
    get_questions_resume self from_date fr w
    = (Ok (if negb (String.eqb (resp_text r) EmptyString)
           then Some (resp_text r, fr') else None),
       {| calls := S (calls w); trace := trace w ++ evs |})
    ∧ unlogged evs
      = backoff_sleep r0
        ++ EFetch (questions_url self) p
           :: (if negb (String.eqb (resp_text r) EmptyString)
               then [EYield (resp_text r)] else [])
    ∧ frame_ok fr' r (k + 1).
Proof.
  intros (Hpage & Hdata & [a Ha] & [t Ht])
    (kvs0 & _ & _ & _ & _ & hm & Hj0 & _ & _ & _ & _ & Hhm & Hb)%well_formed_inv
    Hmore Hp Hr
    (kvs & total & ps & qr & qm & Hj & _ & Hps & Hqr & Hqm)%counters_ok_inv.
  unfold has_more_of, backoff_sleep, backoff_of, envelope in *. rewrite Hj0 in *.
  unfold get_questions_resume, mbind, St_bind, lift.
  rewrite Hdata, Hpage. cbn [py_getitem py_get] in *. rewrite Hhm in *. rewrite Hmore.
  set (b := default JNull (assoc "backoff" kvs0)) in *.
  unfold backoff_ok in Hb.
  destruct (py_truthy b).
  - cbn [negb orb] in Hb. destruct (py_float b) as [secs|]; [|done].
    unfold emit at 1. rewrite time_sleep_sleepable by done.
    rewrite Hp. unfold fetch. cbn [calls trace]. rewrite Hr, Hj.
    cbn [py_getitem]. rewrite Hps, Ha. cbn [py_iadd py_add as_int]. rewrite Hqr, Hqm, Ht.
    after_fetch Hj Hlogs.
  - unfold mret at 1, St_ret at 1.
    rewrite Hp. unfold fetch. cbn [calls trace]. rewrite Hr, Hj.
    cbn [py_getitem]. rewrite Hps, Ha. cbn [py_iadd py_add as_int]. rewrite Hqr, Hqm, Ht.
    after_fetch Hj Hlogs.
Qed.

(** *** A resumption answered with an empty body *)

Ltac case_result :=
  match goal with
  | |- context [match ?x with Ok _ => _ | Err _ => _ end] => destruct x eqn:?
  end.

Ltac ends_quietly :=
  eexists _, _; split; [done|]; split; [done|]; cbn [calls trace];
  split; [lia|];
  first [ by (exists []; rewrite app_nil_r)
        | eexists; split; [by rewrite <- ?app_assoc|];
          rewrite ?yielded_app;
          repeat match goal with
                 | Hq : transfers ?l = [] |- context [yielded ?l] =>
                     rewrite (transfers_nil_yielded l Hq)
                 | Hq : unlogged ?l = [] |- context [yielded ?l] =>
                     rewrite (transfers_nil_yielded l (unlogged_nil_transfers l Hq))
                 end;
          done ].

Lemma start_blank self from_date w :
  blank_next w →
  ∃ res w', get_questions_start self from_date w = (res, w')
            ∧ (∀ v, res ≠ Ok (Some v))
            ∧ (calls w' <= S (calls w))%nat
            ∧ ∃ evs, trace w' = trace w ++ evs ∧ yielded evs = [].
Proof.
  intros Hblank.
  unfold get_questions_start, mbind, St_bind, lift, fetch.
  destruct (build_page_payload self 1 from_date) as [p|e]; [|ends_quietly].
  destruct (HttpClient_fetch (calls w) (questions_url self) p) as [r|e] eqn:Hr;
    [|ends_quietly].
  apply Hblank in Hr. rewrite Hr.
  repeat (case_result; [|ends_quietly]).
  match goal with
  | |- context [__log_status ?a ?b ?c ?d ?w0] =>
      destruct (log_status_quiet a b c d w0) as (res & logs & -> & Hlogs)
  end.
  cbn [calls trace]. destruct res; ends_quietly.
Qed.

Lemma resume_blank self from_date fr w :
  blank_next w →
  ∃ res w', get_questions_resume self from_date fr w = (res, w')
            ∧ (∀ v, res ≠ Ok (Some v))
            ∧ (calls w' <= S (calls w))%nat
            ∧ ∃ evs, trace w' = trace w ++ evs ∧ yielded evs = [].
Proof.
  intros Hblank.
  assert (∀ evs, transfers evs = [] →
            ∃ res w',
              (payload ← lift (build_page_payload self (page fr + 1) from_date);
               req ← fetch (questions_url self) payload;
               data ← lift (resp_json req);
               let questions := resp_text req in
               page_size ← lift (py_getitem data "page_size");
               nquestions ← lift (py_iadd (nquestions fr) page_size);
               quota_remaining ← lift (py_getitem data "quota_remaining");
               quota_max ← lift (py_getitem data "quota_max");
               __log_status quota_remaining quota_max nquestions (tquestions fr);;
               loop_head questions
                 {| page := page fr + 1; data := data;
                    nquestions := nquestions; tquestions := tquestions fr |})
                {| calls := calls w; trace := trace w ++ evs |} = (res, w')
              ∧ (∀ v, res ≠ Ok (Some v))
              ∧ (calls w' <= S (calls w))%nat
              ∧ ∃ evs', trace w' = trace w ++ evs' ∧ yielded evs' = []) as Hrest.
  { intros evs Hevs.
    unfold mbind, St_bind, lift, fetch. cbn [calls trace].
    destruct (build_page_payload self (page fr + 1) from_date) as [p|e]; [|ends_quietly].
    destruct (HttpClient_fetch (calls w) (questions_url self) p) as [r|e] eqn:Hr;
      [|ends_quietly].
    apply Hblank in Hr. rewrite Hr.
    repeat (case_result; [|ends_quietly]).
    match goal with
    | |- context [__log_status ?a ?b ?c ?d ?w0] =>
        destruct (log_status_quiet a b c d w0) as (res & logs & -> & Hlogs)
    end.
    cbn [calls trace]. destruct res; ends_quietly. }
  unfold get_questions_resume.
  unfold mbind at 1, St_bind at 1, lift at 1.
  destruct (py_getitem (data fr) "has_more") as [hm|]; [|ends_quietly].
  destruct (py_truthy hm); [|unfold mret, St_ret; ends_quietly].
  unfold mbind at 1, St_bind at 1, lift at 1.
  destruct (py_get (data fr) "backoff") as [b|]; [|ends_quietly].
  unfold mbind at 1, St_bind at 1.
  destruct (py_truthy b).
  - unfold mbind at 1, St_bind at 1, emit at 1.
    unfold mbind at 1, St_bind at 1, lift at 1.
    destruct (py_float b) as [secs|]; [|ends_quietly].
    match goal with
    | |- context [time_sleep secs ?w0] =>
        destruct (time_sleep_quiet secs w0) as (res & sl & -> & Hsl)
    end.
    cbn [calls trace]. destruct res; [|ends_quietly].
    rewrite <- app_assoc.
    apply Hrest. by rewrite transfers_app, Hsl.
  - unfold mret at 1, St_ret at 1.
    destruct (Hrest [] eq_refl) as (res & w' & Hrun & ?).
    rewrite app_nil_r in Hrun. destruct w as [c tr]. cbn [calls trace] in *. eauto.
Qed.

(** *** The effects scheduled for a list of pages *)

Lemma transfers_schedule url prev reqs :
  transfers (schedule url prev reqs)
  = flat_map (λ q, [EFetch url q.1; EYield (resp_text q.2)]) reqs.
Proof.
  revert prev. induction reqs as [|[p r] reqs IH]; intros prev; [done|].
  cbn [schedule flat_map]. rewrite transfers_app.
  assert (transfers (from_option backoff_sleep [] prev) = []) as ->.
  { destruct prev; [apply transfers_backoff_sleep|done]. }
  rewrite transfers_app, IH. done.
Qed.

Lemma fetched_schedule url prev reqs : fetched (schedule url prev reqs) = reqs.*1.
Proof.
  rewrite <- fetched_transfers, transfers_schedule.
  induction reqs as [|[p r] reqs IH]; [done|]. cbn. by rewrite <- IH.
Qed.

Lemma yielded_schedule url prev reqs :
  yielded (schedule url prev reqs) = resp_text <$> reqs.*2.
Proof.
  rewrite <- yielded_transfers, transfers_schedule.
  induction reqs as [|[p r] reqs IH]; [done|]. cbn. by rewrite <- IH.
Qed.

Lemma schedule_split url reqs :
  ∀ prev (i : nat) p r p' r',
    reqs !! i = Some (p, r) → reqs !! S i = Some (p', r') →
    ∃ pre post,
      schedule url prev reqs
      = pre ++ EYield (resp_text r) :: backoff_sleep r ++ EFetch url p' :: post
      ∧ length (yielded pre) = i ∧ length (fetched pre) = S i.
Proof.
  induction reqs as [|[p0 r0] reqs IH]; intros prev i p r p' r' Hi Hi'; [done|].
  destruct i as [|i].
  - injection Hi as -> ->. destruct reqs as [|[p1 r1] reqs]; [done|].
    injection Hi' as -> ->. cbn [schedule from_option].
    exists (from_option backoff_sleep [] prev ++ [EFetch url p]), ([EYield (resp_text r')] ++ schedule url (Some r') reqs).
    split; [by rewrite <- !app_assoc|].
    rewrite yielded_app, fetched_app, !length_app.
    rewrite (transfers_nil_yielded (from_option _ _ _)), (transfers_nil_fetched (from_option _ _ _));
      [done| |]; (destruct prev; [apply transfers_backoff_sleep|done]).
  - destruct (IH (Some r0) i p r p' r' Hi Hi') as (pre & post & Hs & Hy & Hf).
    cbn [schedule]. rewrite Hs.
    exists (from_option backoff_sleep [] prev ++ [EFetch url p0; EYield (resp_text r0)] ++ pre), post.
    split; [by rewrite <- !app_assoc|].
    rewrite !yielded_app, !fetched_app, !length_app, Hy, Hf.
    rewrite (transfers_nil_yielded (from_option _ _ _)), (transfers_nil_fetched (from_option _ _ _));
      [done| |]; (destruct prev; [apply transfers_backoff_sleep|done]).
Qed.

(** *** Runs over a list of served pages *)

Lemma serves_tail self from_date k q reqs :
  serves self from_date k (q :: reqs) → serves self from_date (S k) reqs.
Proof.
  intros Hs i p r Hi. destruct (Hs (S i) p r Hi) as (Hp & Hr & Hwf & Ht & Hm).
  replace (S k + i)%nat with (k + S i)%nat by lia.
  repeat split; try done. intros. apply Hm. cbn [length]. lia.
Qed.

Lemma last_resp_cons (r0 : response) (q : gmap string json * response) reqs :
  default r0 (snd <$> last (q :: reqs)) = default q.2 (snd <$> last reqs).
Proof. rewrite last_cons. by destruct (last reqs). Qed.

Lemma consume_prefix self from_date reqs :
  ∀ fr r0 (k : nat) w,
    frame_ok fr r0 (Z.of_nat k) → well_formed k r0 = true → calls w = k →
    (reqs ≠ [] → has_more_of r0 = true) →
    serves self from_date k reqs →
    ∃ fr' w',
      (∀ fuel, consume (length reqs + fuel) self from_date (Suspended fr) w
               = consume fuel self from_date (Suspended fr') w')
      ∧ calls w' = (k + length reqs)%nat
      ∧ unlogged (trace w')
        = unlogged (trace w) ++ schedule (questions_url self) (Some r0) reqs
      ∧ frame_ok fr' (default r0 (snd <$> last reqs)) (Z.of_nat (k + length reqs))
      ∧ well_formed (k + length reqs) (default r0 (snd <$> last reqs)) = true.
Proof.
  induction reqs as [|[p r] reqs IH]; intros fr r0 k w Hfr Hwf Hcalls Hmore Hs.
  - exists fr, w. cbn [length schedule last fmap option_fmap option_map default].
    rewrite app_nil_r, Nat.add_0_r. done.
  - destruct (Hs 0%nat p r eq_refl) as (Hp & Hr & Hwf' & Ht & Hm).
    rewrite Nat.add_0_r in Hp, Hr, Hwf'. rewrite <- Hcalls in Hr.
    destruct (resume_step self from_date fr r0 (Z.of_nat k) w p r)
      as (fr1 & evs & Hstep & Hevs & Hfr1); try done.
    { by rewrite Hcalls. }
    { by apply Hmore. }
    { by eapply well_formed_counters. }
    apply String.eqb_neq in Ht. rewrite Ht in Hstep, Hevs. cbn [negb] in Hstep, Hevs.
    destruct (IH fr1 r (S k) {| calls := S (calls w); trace := trace w ++ evs |})
      as (fr' & w' & Hrun & Hc & Htr & Hfr' & Hwf'').
    + by replace (Z.of_nat (S k)) with (Z.of_nat k + 1) by lia.
    + done.
    + cbn. by rewrite Hcalls.
    + intros Hne. apply Hm. destruct reqs; [done|]. cbn [length]. lia.
    + by eapply serves_tail.
    + exists fr', w'. split; [|split; [|split; [|split]]].
      * intros fuel. cbn [length Nat.add consume next]. by rewrite Hstep, Hrun.
      * cbn [length]. lia.
      * rewrite Htr. cbn [trace schedule from_option].
        rewrite unlogged_app, Hevs, <- !app_assoc. done.
      * replace (k + length ((p, r) :: reqs))%nat with (S k + length reqs)%nat
          by (cbn [length]; lia).
        by rewrite last_resp_cons.
      * replace (k + length ((p, r) :: reqs))%nat with (S k + length reqs)%nat
          by (cbn [length]; lia).
        by rewrite last_resp_cons.
Qed.

Lemma run_prefix self from_date q reqs :
  serves self from_date 0 (q :: reqs) →
  ∃ fr w,
    (∀ fuel, get_questions (length (q :: reqs) + fuel) self from_date
             = consume fuel self from_date (Suspended fr) w)
    ∧ calls w = length (q :: reqs)
    ∧ unlogged (trace w) = schedule (questions_url self) None (q :: reqs)
    ∧ frame_ok fr (default q.2 (snd <$> last reqs)) (Z.of_nat (length (q :: reqs)))
    ∧ well_formed (length (q :: reqs)) (default q.2 (snd <$> last reqs)) = true.
Proof.
  destruct q as [p r]. intros Hs.
  destruct (Hs 0%nat p r eq_refl) as (Hp & Hr & Hwf & Ht & Hm).
  destruct (start_step self from_date world0 p r)
    as (fr1 & evs & Hstep & Hevs & Hfr1); try done.
  { by eapply well_formed_counters. }
  apply String.eqb_neq in Ht. rewrite Ht in Hstep, Hevs. cbn [negb] in Hstep, Hevs.
  destruct (consume_prefix self from_date reqs fr1 r 1%nat
              {| calls := S (calls world0); trace := trace world0 ++ evs |})
    as (fr' & w' & Hrun & Hc & Htr & Hfr' & Hwf''); try done.
  - intros Hne. apply Hm. destruct reqs; [done|]. cbn [length]. lia.
  - by eapply serves_tail.
  - exists fr', w'. split; [|split; [|split; [|split]]]; try done.
    + intros fuel. unfold get_questions. cbn [length Nat.add consume next].
      by rewrite Hstep, Hrun.
    + rewrite Htr. cbn [trace world0 schedule from_option app]. by rewrite Hevs.
Qed.

Lemma get_questions_trace self from_date reqs fuel :
  reqs ≠ [] →
  serves self from_date 0 reqs →
  (∀ q, last reqs = Some q → has_more_of q.2 = false) →
  (length reqs < fuel)%nat →
  ∃ w, get_questions fuel self from_date = Some (None, w)
       ∧ calls w = length reqs
       ∧ unlogged (trace w) = schedule (questions_url self) None reqs.
Proof.
  intros Hne Hs Hlast Hfuel. destruct reqs as [|q reqs]; [done|].
  destruct (run_prefix self from_date q reqs Hs) as (fr & w & Hrun & Hc & Htr & Hfr & Hwf).
  exists w. split; [|done].
  replace fuel with (length (q :: reqs) + S (fuel - S (length (q :: reqs))))%nat by lia.
  rewrite Hrun. cbn [consume next].
  erewrite resume_stops; [done..|].
  rewrite <- (last_resp_cons q.2).
  destruct (last (q :: reqs)) as [q'|] eqn:Hq'; [by apply Hlast|].
  by apply last_None in Hq'.
Qed.

Lemma build_page_payload_page self k from_date p :
  build_page_payload self k from_date = Ok p → p !! PPAGE = Some (JInt k).
Proof.
  unfold build_page_payload, __build_payload.
  destruct from_date as [d|]; cbn [mbind result_bind mret result_ret].
  - destruct (int_of_float (timestamp d)); [|done].
    cbn [mbind result_bind mret result_ret].
    destruct (str_truthy (access_token self)); intros [= <-].
    + rewrite lookup_insert_ne by done. rewrite lookup_insert_ne by done.
      by rewrite lookup_insert_eq.
    + rewrite lookup_insert_ne by done. by rewrite lookup_insert_eq.
  - destruct (str_truthy (access_token self)); intros [= <-].
    + rewrite lookup_insert_ne by done. by rewrite lookup_insert_eq.
    + by rewrite lookup_insert_eq.
Qed.

(** C2.  When the transport serves N >= 1 pages with well-formed
    envelopes and non-empty bodies, [has_more] being true on pages
    1..N-1 and false on page N, iterating [get_questions] to its end
    stops normally after exactly N transport calls; the payload of the
    k-th call carries [page = k]; the yielded values are the N raw
    bodies in page order; and calls and yields alternate, every page
    being yielded before the next one is requested. *)
Theorem get_questions_paginates self from_date reqs fuel :
  reqs ≠ [] →
  serves self from_date 0 reqs →
  (∀ q, last reqs = Some q → has_more_of q.2 = false) →
  (length reqs < fuel)%nat →
  ∃ w, get_questions fuel self from_date = Some (None, w)
       ∧ calls w = length reqs
       ∧ fetched (trace w) = reqs.*1
       ∧ (∀ (i : nat) p, fetched (trace w) !! i = Some p →
            p !! PPAGE = Some (JInt (Z.of_nat i + 1)))
       ∧ yielded (trace w) = resp_text <$> reqs.*2
       ∧ transfers (trace w)
         = flat_map (λ q, [EFetch (questions_url self) q.1; EYield (resp_text q.2)]) reqs.
Proof.
  intros Hne Hs Hlast Hfuel.
  destruct (get_questions_trace self from_date reqs fuel) as (w & Hrun & Hc & Htr); try done.
  assert (transfers (trace w)
          = flat_map (λ q, [EFetch (questions_url self) q.1; EYield (resp_text q.2)]) reqs)
    as Htrans by (by rewrite <- transfers_unlogged, Htr, transfers_schedule).
  assert (fetched (trace w) = reqs.*1) as Hf.
  { by rewrite <- fetched_transfers, <- transfers_unlogged, Htr,
      fetched_transfers, fetched_schedule. }
  exists w. repeat split; try done.
  - intros i p. rewrite Hf, list_lookup_fmap.
    destruct (reqs !! i) as [[p' r]|] eqn:Hi; [|done].
    intros [= <-]. destruct (Hs i p' r Hi) as (Hp & _).
    by apply build_page_payload_page in Hp.
  - by rewrite <- yielded_transfers, <- transfers_unlogged, Htr,
      yielded_transfers, yielded_schedule.
Qed.

(** C4.  In such a run, between the yield of a page that is followed by
    another and the transport call for that next page lies exactly one
    [time.sleep(float(backoff))] when the page's envelope carries a
    (non-zero) backoff, and nothing (log records aside) when it carries
    none: the next call is then issued directly. *)
Theorem backoff_between_pages self from_date reqs fuel (i : nat) p r p' r' :
  serves self from_date 0 reqs →
  (∀ q, last reqs = Some q → has_more_of q.2 = false) →
  (length reqs < fuel)%nat →
  reqs !! i = Some (p, r) → reqs !! S i = Some (p', r') →
  ∃ w pre between post,
    get_questions fuel self from_date = Some (None, w)
    ∧ unlogged (trace w)
      = pre ++ EYield (resp_text r) :: between ++ EFetch (questions_url self) p' :: post
    ∧ length (yielded pre) = i ∧ length (fetched pre) = S i
    ∧ (py_truthy (backoff_of r) = true →
         ∃ secs, py_float (backoff_of r) = Ok secs ∧ between = [ESleep secs])
    ∧ (py_truthy (backoff_of r) = false → between = []).
Proof.
  intros Hs Hlast Hfuel Hi Hi'.
  destruct (get_questions_trace self from_date reqs fuel) as (w & Hrun & Hc & Htr); try done.
  { by intros ->. }
  destruct (schedule_split (questions_url self) reqs None i p r p' r' Hi Hi')
    as (pre & post & Hsplit & Hy & Hf).
  exists w, pre, (backoff_sleep r), post.
  split; [done|]. split; [by rewrite Htr|]. split; [done|]. split; [done|].
  destruct (Hs i p r Hi) as (_ & _ & Hwf & _).
  apply well_formed_inv in Hwf as (kvs & _ & _ & _ & _ & _ & Hj & _ & _ & _ & _ & _ & Hb).
  unfold backoff_sleep, backoff_of, envelope. rewrite Hj. cbn [py_get].
  unfold backoff_ok in Hb.
  destruct (py_truthy (default JNull (assoc "backoff" kvs))); cbn [negb orb] in Hb.
  - split; [|done]. intros _.
    destruct (py_float (default JNull (assoc "backoff" kvs))) as [secs|]; [|done]. eauto.
  - done.
Qed.

End Pagination.

(** *** The scripted run *)

Lemma scenario_serves :
  @serves Scenario.runtime (Scenario.replay [Scenario.page1; Scenario.page2])
    Scenario.client None 0 Scenario.pages.
Proof.
  intros [|[|i]] p r Hi; [| |done]; injection Hi as <- <-.
  - split; [by vm_compute|]. split; [by vm_compute|]. split; [by vm_compute|].
    split; [vm_compute; discriminate|]. intros _. by vm_compute.
  - split; [by vm_compute|]. split; [by vm_compute|]. split; [by vm_compute|].
    split; [vm_compute; discriminate|]. cbn. lia.
Qed.

Lemma scenario_last q :
  last Scenario.pages = Some q → @has_more_of q.2 = false.
Proof. intros [= <-]. by vm_compute. Qed.

(** The whole run, log records aside: two calls, a wait of two seconds
    between them, the two bodies in order. *)
Example scenario_trace :
  (λ run, match run with
          | Some (e, w) => Some (e, unlogged (trace w))
          | None => None
          end)
    (@get_questions Scenario.runtime (Scenario.replay [Scenario.page1; Scenario.page2])
       3 Scenario.client None)
  = Some (None,
          [EFetch (questions_url Scenario.client) (Scenario.payload 1);
           EYield (resp_text Scenario.page1);
           ESleep (S754_finite false 4503599627370496 (-51));
           EFetch (questions_url Scenario.client) (Scenario.payload 2);
           EYield (resp_text Scenario.page2)]).
Proof. vm_compute. reflexivity. Qed.

Lemma get_questions_paginates_scenario :
  ∃ w, @get_questions Scenario.runtime (Scenario.replay [Scenario.page1; Scenario.page2])
         3 Scenario.client None = Some (None, w)
       ∧ calls w = 2%nat
       ∧ fetched (trace w) = [Scenario.payload 1; Scenario.payload 2]
       ∧ yielded (trace w) = [resp_text Scenario.page1; resp_text Scenario.page2].
Proof.
  destruct (@get_questions_paginates Scenario.runtime
              (Scenario.replay [Scenario.page1; Scenario.page2])
              Scenario.client None Scenario.pages 3)
    as (w & Hrun & Hc & Hf & _ & Hy & _).
  - discriminate.
  - exact scenario_serves.
  - exact scenario_last.
  - simpl. lia.
  - exists w. repeat split; assumption.
Defined.

Lemma backoff_between_pages_scenario :
  ∃ w pre between post,
    @get_questions Scenario.runtime (Scenario.replay [Scenario.page1; Scenario.page2])
      3 Scenario.client None = Some (None, w)
    ∧ unlogged (trace w)
      = pre ++ EYield (resp_text Scenario.page1) :: between
            ++ EFetch (questions_url Scenario.client) (Scenario.payload 2) :: post
    ∧ between = [ESleep (S754_finite false 4503599627370496 (-51))].
Proof.
  destruct (@backoff_between_pages Scenario.runtime
              (Scenario.replay [Scenario.page1; Scenario.page2])
              Scenario.client None Scenario.pages 3 0
              (Scenario.payload 1) Scenario.page1 (Scenario.payload 2) Scenario.page2)
    as (w & pre & between & post & Hrun & Htr & _ & _ & Hb & _).
  - exact scenario_serves.
  - exact scenario_last.
  - simpl. lia.
  - reflexivity.
  - reflexivity.
  - exists w, pre, between, post. split; [assumption|]. split; [assumption|].
    destruct Hb as (secs & Hsecs & ->); [reflexivity|].
    vm_compute in Hsecs. injection Hsecs as <-. reflexivity.
Defined.

(** ** Items *)

Section Items.
Context `{PyRuntime}.

(** C6.  [parse_questions] yields the elements of the [items] list of
    the decoded page in their order; when the body does not decode, or
    the decoded document has no [items] entry or is not an object, it
    raises before anything is yielded. *)
Theorem parse_questions_items :
  (∀ raw doc items,
      json_loads raw = Ok doc → py_getitem doc "items" = Ok (JList items) →
      StackExchange.parse_questions raw = (items, None))
  ∧ (∀ raw e,
      json_loads raw = Err e → StackExchange.parse_questions raw = ([], Some e))
  ∧ (∀ raw kvs,
      json_loads raw = Ok (JDict kvs) → assoc "items" kvs = None →
      StackExchange.parse_questions raw = ([], Some (KeyError "items")))
  ∧ (∀ raw doc,
      json_loads raw = Ok doc → (∀ kvs, doc ≠ JDict kvs) →
      StackExchange.parse_questions raw = ([], Some TypeError)).
Proof.
  unfold StackExchange.parse_questions. repeat split.
  - intros raw doc items -> ->. done.
  - intros raw e ->. done.
  - intros raw kvs -> Hk. cbn [py_getitem]. by rewrite Hk.
  - intros raw doc -> Hd. destruct doc; try done. by destruct (Hd kvs).
Qed.

Lemma py_eq_dict_lookup db :
  ∀ da k v,
    (fix go (da : list (string * json)) : bool :=
       match da with
       | [] => true
       | (k, v) :: rest =>
           match assoc k db with
           | Some w => py_eq v w && go rest
           | None => false
           end
       end) da = true →
    assoc k da = Some v →
    ∃ w, assoc k db = Some w ∧ py_eq v w = true.
Proof.
  induction da as [|[k' v'] da IH]; intros k v Hgo Hk; [done|].
  cbn [assoc] in Hk.
  destruct (assoc k' db) as [w|] eqn:Hw; [|done].
  apply andb_prop in Hgo as [Hv Hgo].
  destruct (String.eqb_spec k k') as [->|]; [|by eapply IH].
  injection Hk as <-. eauto.
Qed.

(** C9.  [metadata_id] is [str(item['question_id'])]: for an integer
    identifier its decimal representation; two items that compare equal
    and hold integer identifiers get the same string. *)
Theorem metadata_id_is_str :
  (∀ item v,
      py_getitem item "question_id" = Ok v →
      StackExchange.metadata_id item = Ok (py_str v))
  ∧ (∀ item n,
      py_getitem item "question_id" = Ok (JInt n) →
      StackExchange.metadata_id item = Ok (pretty n))
  ∧ (∀ item1 item2 n1 n2,
      py_eq item1 item2 = true →
      py_getitem item1 "question_id" = Ok (JInt n1) →
      py_getitem item2 "question_id" = Ok (JInt n2) →
      StackExchange.metadata_id item1 = StackExchange.metadata_id item2).
Proof.
  unfold StackExchange.metadata_id. repeat split.
  - by intros item v ->.
  - by intros item n ->.
  - intros item1 item2 n1 n2 Heq H1 H2. rewrite H1, H2.
    cbn [mbind result_bind mret result_ret py_str]. do 2 f_equal.
    destruct item1 as [| | | | | |da]; try done.
    destruct item2 as [| | | | | |db]; try done.
    cbn [py_getitem] in H1, H2.
    destruct (assoc "question_id" da) as [v1|] eqn:Hv1; [|done].
    destruct (assoc "question_id" db) as [v2|] eqn:Hv2; [|done].
    injection H1 as ->. injection H2 as ->.
    cbn [py_eq] in Heq. apply andb_prop in Heq as [_ Hgo].
    destruct (py_eq_dict_lookup db da _ _ Hgo Hv1) as (w & Hw & Hvw).
    rewrite Hv2 in Hw. injection Hw as <-.
    cbn in Hvw. by apply Z.eqb_eq in Hvw.
Qed.

(** C8.  [metadata_updated_on] returns the UNIX seconds of the item's
    [last_activity_date] unchanged: a float comes back as it is, with
    its fraction; an integer count of seconds (of magnitude up to 2^53,
    which covers every date a datetime can hold) comes back as the float
    of exactly that value. *)
Theorem metadata_updated_on_roundtrip :
  (∀ item t,
      py_getitem item "last_activity_date" = Ok (JInt t) →
      Z.abs t <= 2 ^ 53 →
      ∃ x, StackExchange.metadata_updated_on item = Ok x ∧ float_eq_Z x t = true)
  ∧ (∀ item x,
      py_getitem item "last_activity_date" = Ok (JFloat x) →
      StackExchange.metadata_updated_on item = Ok x).
Proof.
  unfold StackExchange.metadata_updated_on. split.
  - intros item t -> Ht. cbn [mbind result_bind py_float]. by apply float_of_Z_exact.
  - by intros item x ->.
Qed.

End Items.

Lemma parse_questions_items_scenario :
  @StackExchange.parse_questions Scenario.runtime (Scenario.dumps Scenario.doc1)
  = ([Scenario.question 1 1000], None).
Proof.
  apply (proj1 (@parse_questions_items Scenario.runtime)
           (Scenario.dumps Scenario.doc1) Scenario.doc1 [Scenario.question 1 1000]).
  - vm_compute. reflexivity.
  - reflexivity.
Defined.

Lemma metadata_id_is_str_scenario :
  @StackExchange.metadata_id Scenario.runtime (Scenario.question 1 1000) = Ok "1"%string.
Proof.
  apply (proj1 (proj2 (@metadata_id_is_str Scenario.runtime)) (Scenario.question 1 1000) 1).
  reflexivity.
Defined.

Lemma metadata_updated_on_roundtrip_scenario :
  ∃ x, @StackExchange.metadata_updated_on Scenario.runtime (Scenario.question 1 1000) = Ok x
       ∧ float_eq_Z x 1000 = true.
Proof.
  apply (proj1 (@metadata_updated_on_roundtrip Scenario.runtime)
           (Scenario.question 1 1000) 1000).
  - reflexivity.
  - vm_compute. discriminate.
Defined.

(** ** Construction of the backend *)

Section Construction.
Context `{Perceval}.

(** C7.  The constructor raises [BackendError] when an access token is
    given without an API key, whatever the collaborators would do: the
    base initializer is not reached and no client exists yet.  With an
    API key, or without an access token, construction goes through the
    base initializer and succeeds when it does. *)
Theorem init_checks_credentials site tagged api_token access_token max_questions
    tag archive ssl_verify :
  (str_truthy api_token = false → str_truthy access_token = true →
     StackExchange.__init__ site tagged api_token access_token max_questions
       tag archive ssl_verify
     = Err (BackendError "access_token is defined but api_token is not"))
  ∧ (str_truthy api_token = true ∨ str_truthy access_token = false →
     ∀ b, Backend_init site tag archive ssl_verify = Ok b →
       StackExchange.__init__ site tagged api_token access_token max_questions
         tag archive ssl_verify
       = Ok {| StackExchange.base := b;
               StackExchange.site := site;
               StackExchange.api_token := api_token;
               StackExchange.access_token := access_token;
               StackExchange.tagged := tagged;
               StackExchange.max_questions := max_questions;
               StackExchange.client := None |}).
Proof.
  unfold StackExchange.__init__. split.
  - by intros -> ->.
  - intros Hcred b ->.
    destruct Hcred as [-> | ->]; [done|]. by rewrite andb_false_r.
Qed.

End Construction.

Lemma init_checks_credentials_scenario :
  @StackExchange.__init__ (Scenario.replay []) "stackoverflow" (Some "python")
    None (Some "tok") MAX_QUESTIONS None None true
  = Err (BackendError "access_token is defined but api_token is not")
  ∧ is_ok (@StackExchange.__init__ (Scenario.replay []) "stackoverflow" (Some "python")
             (Some "aaa") (Some "tok") MAX_QUESTIONS None None true) = true.
Proof.
  split.
  - apply (proj1 (@init_checks_credentials (Scenario.replay []) "stackoverflow"
                    (Some "python") None (Some "tok") MAX_QUESTIONS None None true));
      reflexivity.
  - rewrite (proj2 (@init_checks_credentials (Scenario.replay []) "stackoverflow"
                      (Some "python") (Some "aaa") (Some "tok") MAX_QUESTIONS None None true)
               (or_introl eq_refl) ("stackoverflow", None, true) eq_refl).
    reflexivity.
Defined.

(** * Further properties *)

Import Resumption Runs Fetching.

(** ** Payloads and their archived form *)

(** X1.  The keys of a request payload are fixed: the eight parameters
    [page], [pagesize], [order], [sort], [tagged], [site], [key] and
    [filter] are always present (also when the tag or the key is [None]),
    [min] is present exactly when a date is given, and [access_token]
    exactly when the client holds a non-empty one. *)
Theorem build_page_payload_dom self page from_date p :
  build_page_payload self page from_date = Ok p →
  dom p = ({[PPAGE; PPAGESIZE; PORDER; PSORT; PTAGGED; PSITE; PKEY; PFILTER]} : gset string)
          ∪ (match from_date with Some _ => {[PMIN]} | None => ∅ end)
          ∪ (if str_truthy (access_token self) then {[PACCESSTOKEN]} else ∅).
Proof.
  unfold build_page_payload, __build_payload.
  destruct from_date as [d|]; cbn [mbind result_bind mret result_ret].
  - destruct (int_of_float (timestamp d)); [|done].
    cbn [mbind result_bind mret result_ret].
    destruct (str_truthy (access_token self)); intros [= <-];
      rewrite ?dom_insert_L, dom_singleton_L; set_solver.
  - destruct (str_truthy (access_token self)); intros [= <-];
      rewrite ?dom_insert_L, dom_singleton_L; set_solver.
Qed.

(** X2.  The payloads a client builds for two pages of the same fetch
    differ in [page] only: the payload of page [k'] is the payload of
    page [k] with [page] set to [k']. *)
Theorem build_page_payload_next self k k' from_date p p' :
  build_page_payload self k from_date = Ok p →
  build_page_payload self k' from_date = Ok p' →
  p' = <[PPAGE := JInt k']> p.
Proof.
  unfold build_page_payload, __build_payload.
  destruct from_date as [d|]; cbn [mbind result_bind mret result_ret].
  - destruct (int_of_float (timestamp d)); [|done].
    cbn [mbind result_bind mret result_ret].
    destruct (str_truthy (access_token self)); intros [= <-] [= <-];
      apply map_eq; intros i;
      rewrite !lookup_insert; repeat case_decide; simplify_eq; done.
  - destruct (str_truthy (access_token self)); intros [= <-] [= <-];
      apply map_eq; intros i;
      rewrite !lookup_insert; repeat case_decide; simplify_eq; done.
Qed.

Lemma build_page_payload_stripped self self' page from_date p p' :
  site self = site self' → tagged self = tagged self' →
  max_questions self = max_questions self' →
  build_page_payload self page from_date = Ok p →
  build_page_payload self' page from_date = Ok p' →
  delete PACCESSTOKEN (delete PKEY p) = delete PACCESSTOKEN (delete PKEY p').
Proof.
  unfold build_page_payload, __build_payload. intros -> -> ->.
  destruct from_date as [d|]; cbn [mbind result_bind mret result_ret].
  - destruct (int_of_float (timestamp d)); [|done].
    cbn [mbind result_bind mret result_ret].
    destruct (str_truthy (access_token self)), (str_truthy (access_token self'));
      intros [= <-] [= <-]; apply map_eq; intros i;
      rewrite !lookup_delete, !lookup_insert; repeat case_decide; simplify_eq; done.
  - destruct (str_truthy (access_token self)), (str_truthy (access_token self'));
      intros [= <-] [= <-]; apply map_eq; intros i;
      rewrite !lookup_delete, !lookup_insert; repeat case_decide; simplify_eq; done.
Qed.

(** X3.  What [sanitize_for_archive] leaves of a request payload does
    not depend on the credentials: two clients that agree on site, tag and
    page size leave the same sanitized payload for the same page and date,
    whatever their key and access token. *)
Theorem archived_payload_ignores_credentials {H : Type} self self' page from_date p p'
    (url : string) (headers : H) (l : loc) (h h' : store) :
  site self = site self' → tagged self = tagged self' →
  max_questions self = max_questions self' →
  build_page_payload self page from_date = Ok p →
  build_page_payload self' page from_date = Ok p' →
  deref (sanitize_for_archive url headers l (<[l := p]> h)).2 l
  = deref (sanitize_for_archive url headers l (<[l := p']> h')).2 l.
Proof.
  intros Hs Ht Hm Hp Hp'.
  destruct (sanitize_for_archive_spec url headers l (<[l := p]> h)) as (h1 & -> & Hd1 & _).
  destruct (sanitize_for_archive_spec url headers l (<[l := p']> h')) as (h2 & -> & Hd2 & _).
  cbn [snd]. rewrite Hd1, Hd2, !deref_insert_eq. by eapply build_page_payload_stripped.
Qed.

(** X4.  [sanitize_for_archive] changes nothing in a store whose payload
    holds neither [key] nor [access_token], and sanitizing a second time
    leaves the store as the first call left it. *)
Theorem sanitize_for_archive_idempotent {H : Type}
    (url : string) (headers : H) (l : loc) (h : store) :
  (deref h l !! PKEY = None → deref h l !! PACCESSTOKEN = None →
     sanitize_for_archive url headers l h = (Ok (url, headers, l), h))
  ∧ (∀ h1, (sanitize_for_archive url headers l h).2 = h1 →
       sanitize_for_archive url headers l h1 = (Ok (url, headers, l), h1)).
Proof.
  assert (∀ h0 : store, deref h0 l !! PKEY = None → deref h0 l !! PACCESSTOKEN = None →
            sanitize_for_archive url headers l h0 = (Ok (url, headers, l), h0)) as Hnop.
  { intros h0 Hk Ha.
    unfold sanitize_for_archive, mbind, St_bind, mret, St_ret, dict_contains, dict_pop.
    rewrite Hk. cbn. by rewrite Ha. }
  split; [apply Hnop|].
  intros h1 <-.
  destruct (sanitize_for_archive_spec url headers l h) as (h1 & -> & Hd & _).
  cbn [snd]. apply Hnop; rewrite Hd.
  - rewrite lookup_delete_ne by done. apply lookup_delete_eq.
  - apply lookup_delete_eq.
Qed.

(** ** Credentials, dates, metadata and log records *)

Lemma build_page_payload_credentials self page from_date p :
  build_page_payload self page from_date = Ok p →
  p !! PKEY = Some (json_of_str (token self))
  ∧ p !! PACCESSTOKEN
    = if str_truthy (access_token self) then Some (json_of_str (access_token self))
      else None.
Proof.
  unfold build_page_payload, __build_payload.
  destruct from_date as [d|]; cbn [mbind result_bind mret result_ret].
  - destruct (int_of_float (timestamp d)); [|done].
    cbn [mbind result_bind mret result_ret].
    destruct (str_truthy (access_token self)); intros [= <-];
      rewrite !lookup_insert; repeat case_decide; simplify_eq; done.
  - destruct (str_truthy (access_token self)); intros [= <-];
      rewrite !lookup_insert; repeat case_decide; simplify_eq; done.
Qed.

Section Backend.
Context `{PyRuntime} `{Perceval}.

(** X5.  A client made by [_init_client] of a backend that
    [__init__] accepted never sends an access token without a key: when the
    payload holds [access_token], it is the non-empty token the backend was
    given, and [key] is the non-empty API token. *)
Theorem backend_client_credentials site tagged api_token access_token max_questions
    tag archive ssl_verify b page from_date p v :
  StackExchange.__init__ site tagged api_token access_token max_questions
    tag archive ssl_verify = Ok b →
  build_page_payload (StackExchange._init_client b) page from_date = Ok p →
  p !! PACCESSTOKEN = Some v →
  ∃ k a, p !! PKEY = Some (JStr k) ∧ k ≠ EmptyString
         ∧ v = JStr a ∧ a ≠ EmptyString
         ∧ api_token = Some k ∧ access_token = Some a.
Proof.
  unfold StackExchange.__init__.
  destruct (negb (str_truthy api_token) && str_truthy access_token) eqn:Hguard; [done|].
  destruct (Backend_init site tag archive ssl_verify) as [base|]; [|done].
  intros [= <-] Hp Hv.
  destruct (build_page_payload_credentials _ _ _ _ Hp) as [Hk Ha].
  cbn [StackExchange._init_client StackExchangeClient.__init__ token
       StackExchangeClient.access_token StackExchange.api_token
       StackExchange.access_token] in Hk, Ha.
  rewrite Ha in Hv.
  destruct access_token as [a|]; [|done]. cbn [str_truthy] in *.
  destruct (String.eqb_spec a EmptyString) as [|Hane]; [done|]. cbn in Hv. injection Hv as <-.
  destruct api_token as [k|]; [|done]. cbn [str_truthy] in *.
  destruct (String.eqb_spec k EmptyString) as [|Hkne]; [done|].
  exists k, a. by rewrite Hk.
Qed.

(** X6.  [fetch] hands its category over unchanged and always a
    datetime as [from_date], the epoch sentinel when none is given: the
    payload built from it carries [min], the integer seconds of that
    datetime, for every date and not only for the default one. *)
Theorem fetch_always_bounds self page category from_date p :
  build_page_payload self page (Some (StackExchange.fetch category from_date).2) = Ok p →
  (StackExchange.fetch category from_date).1 = category
  ∧ ∃ ts, p !! PMIN = Some (JInt ts)
          ∧ int_of_float (timestamp (default DEFAULT_DATETIME from_date)) = Ok ts.
Proof.
  intros Hp. split; [done|].
  pose proof (build_page_payload_min _ _ _ _ Hp) as Hmin.
  assert ((StackExchange.fetch category from_date).2 = default DEFAULT_DATETIME from_date)
    as Hd by (by destruct from_date).
  rewrite Hd in *.
  destruct (int_of_float (timestamp (default DEFAULT_DATETIME from_date))) as [ts|e] eqn:Hts;
    [by exists ts|].
  unfold build_page_payload, __build_payload in Hp.
  cbn [mbind result_bind] in Hp. by rewrite Hts in Hp.
Qed.
End Backend.

Section Metadata.
Context `{PyRuntime}.

(** X7.  [metadata_id] tells integer identifiers apart: items whose
    [question_id] are different integers get different identifiers. *)
Theorem metadata_id_distinguishes item1 item2 n1 n2 :
  py_getitem item1 "question_id" = Ok (JInt n1) →
  py_getitem item2 "question_id" = Ok (JInt n2) →
  n1 ≠ n2 →
  StackExchange.metadata_id item1 ≠ StackExchange.metadata_id item2.
Proof.
  unfold StackExchange.metadata_id. intros -> -> Hne.
  cbn [mbind result_bind mret result_ret py_str]. intros [= Heq].
  by apply (inj pretty) in Heq.
Qed.

(** X8.  [metadata_id] does not keep the type of the identifier: an item
    whose [question_id] is an integer and one whose [question_id] is the
    string of its decimal digits get the same identifier. *)
Theorem metadata_id_conflates item1 item2 n :
  py_getitem item1 "question_id" = Ok (JInt n) →
  py_getitem item2 "question_id" = Ok (JStr (pretty n)) →
  StackExchange.metadata_id item1 = StackExchange.metadata_id item2.
Proof. unfold StackExchange.metadata_id. by intros -> ->. Qed.

(** X9.  The metadata extractors do not guard their field: on an object
    without [question_id] (resp. [last_activity_date]) they raise
    [KeyError] with that key, on an item that is no object [TypeError], and
    [metadata_updated_on] raises [TypeError] when the date is null, a list
    or an object. *)
Theorem metadata_needs_fields :
  (∀ kvs, assoc "question_id" kvs = None →
     StackExchange.metadata_id (JDict kvs) = Err (KeyError "question_id"))
  ∧ (∀ kvs, assoc "last_activity_date" kvs = None →
       StackExchange.metadata_updated_on (JDict kvs) = Err (KeyError "last_activity_date"))
  ∧ (∀ item, (∀ kvs, item ≠ JDict kvs) →
       StackExchange.metadata_id item = Err TypeError
       ∧ StackExchange.metadata_updated_on item = Err TypeError)
  ∧ (∀ item v, py_getitem item "last_activity_date" = Ok v →
       match v with JNull | JList _ | JDict _ => True | _ => False end →
       StackExchange.metadata_updated_on item = Err TypeError).
Proof.
  unfold StackExchange.metadata_id, StackExchange.metadata_updated_on.
  split; [|split; [|split]].
  - intros kvs Hk. cbn. by rewrite Hk.
  - intros kvs Hk. cbn. by rewrite Hk.
  - intros item Hitem. destruct item; try done. by destruct (Hitem kvs).
  - intros item v -> Hv. by destruct v.
Qed.

(** X10.  [parse_questions] iterates over whatever [items] holds: a
    list gives its elements, an object its keys in order, a string its
    characters (code points); null, a boolean or a number raise
    [TypeError] before anything is yielded. *)
Theorem parse_questions_other_items raw doc v :
  json_loads raw = Ok doc →
  py_getitem doc "items" = Ok v →
  match v with
  | JNull | JBool _ | JInt _ | JFloat _ =>
      StackExchange.parse_questions raw = ([], Some TypeError)
  | JDict kvs => StackExchange.parse_questions raw = (JStr <$> kvs.*1, None)
  | JStr s =>
      StackExchange.parse_questions raw = (JStr <$> code_points s, None)
  | JList items => StackExchange.parse_questions raw = (items, None)
  end.
Proof.
  unfold StackExchange.parse_questions. intros -> ->. by destruct v.
Qed.

(** The characters of a text are its code points: the three bytes 97,
    195, 169 of the text a-e-acute are two characters. *)
Example code_points_utf8 :
  code_points (String (Ascii.ascii_of_nat 97)
                 (String (Ascii.ascii_of_nat 195)
                    (String (Ascii.ascii_of_nat 169) EmptyString)))
  = [String (Ascii.ascii_of_nat 97) EmptyString;
     String (Ascii.ascii_of_nat 195) (String (Ascii.ascii_of_nat 169) EmptyString)].
Proof. reflexivity. Qed.
End Metadata.

Section Logging.
Context `{PyRuntime} `{Perceval}.

(** X11.  For integer counters [__log_status] never raises and adds
    exactly two records: the quota at DEBUG level, then at INFO level
    either that no questions were found, when the total is 0, or the
    smaller of the running count and the total, over the total. *)
Theorem log_status_records qr qm (a t : Z) w :
  __log_status qr qm (JInt a) (JInt t) w
  = (Ok (),
     {| calls := calls w;
        trace := trace w
                 ++ [ELog DEBUG ("Rate limit: " +:+ py_str qr +:+ "/" +:+ py_str qm);
                     ELog INFO (if t =? 0 then "No questions were found."
                                else "Fetching questions: " +:+ pretty (Z.min a t)
                                     +:+ "/" +:+ pretty t)] |}).
Proof.
  unfold __log_status, mbind, St_bind, emit, lift. cbn [py_eq as_int].
  destruct (Z.eqb_spec t 0) as [->|Hne]; cbn [negb calls trace].
  - by rewrite <- app_assoc.
  - unfold py_min. cbn [py_lt as_int mbind result_bind mret result_ret].
    rewrite <- app_assoc. cbn [app]. do 5 f_equal.
    destruct (Z.ltb_spec t a); f_equal; [by rewrite Z.min_r by lia|by rewrite Z.min_l by lia].
Qed.

(** X12.  When the total is not zero and cannot be compared with the
    page size, [__log_status] raises the exception of the comparison after
    the DEBUG record and logs no progress. *)
Theorem log_status_incomparable qr qm page_size total e w :
  py_eq total (JInt 0) = false →
  py_lt total page_size = Err e →
  __log_status qr qm page_size total w
  = (Err e,
     {| calls := calls w;
        trace := trace w
                 ++ [ELog DEBUG ("Rate limit: " +:+ py_str qr +:+ "/" +:+ py_str qm)] |}).
Proof.
  intros Hz Hlt. unfold __log_status, mbind, St_bind, emit, lift, py_min.
  rewrite Hz. cbn [negb]. by rewrite Hlt.
Qed.
End Logging.

(** ** One resumption of the generator *)

Section Steps.
Context `{PyRuntime} `{Perceval}.

Lemma time_sleep_cases secs w :
  (sleepable (calls w) secs = true
   ∧ time_sleep secs w
     = (Ok (), {| calls := calls w; trace := trace w ++ [ESleep secs] |}))
  ∨ (sleepable (calls w) secs = false
     ∧ ∃ e, sleep_check (calls w) secs = Err e ∧ time_sleep secs w = (Err e, w)).
Proof.
  unfold sleepable, time_sleep. destruct (sleep_check (calls w) secs); cbn; eauto.
Qed.

Ltac case_result :=
  match goal with
  | |- context [match ?x with Ok _ => _ | Err _ => _ end] => destruct x eqn:?; cbv beta iota
  end.

Ltac no_yield := right; (split; [by intros ?|]); (split; [done|]).

Ltac called p evs :=
  eexists _, _; split; [reflexivity|]; right; exists p, evs;
  split; [done|]; split; [by rewrite <- ?app_assoc|];
  unfold landed;
  repeat match goal with
         | Hq : ?x = _ |- context [match ?x with Ok _ => _ | Err _ => _ end] => rewrite Hq
         end;
  cbn [step_of fst snd].

Ltac finish_call p :=
  repeat (case_result; [|called p (@nil event); by no_yield]);
  match goal with
  | |- context [__log_status ?a ?b ?c ?d ?w0] =>
      let res := fresh "res" in let logs := fresh "logs" in let Hlogs := fresh "Hlogs" in
      destruct (log_status_quiet a b c d w0) as (res & logs & -> & Hlogs);
      apply unlogged_nil_transfers in Hlogs;
      cbn [calls trace]; destruct res; cbv beta iota;
      [ unfold loop_head, mbind, St_bind, emit, mret, St_ret;
        match goal with
        | |- context [String.eqb ?t EmptyString] =>
            destruct (String.eqb_spec t EmptyString); cbn [negb calls trace];
            [ called p logs; by no_yield
            | called p (logs ++ [EYield t]);
              left; eexists; repeat split; try done; by rewrite transfers_app, Hlogs ]
        end
      | called p logs; by no_yield ]
  end.

(** From the building of the payload on, for the first page ([first]) and
    for the later ones. *)
Lemma call_cases self from_date (k : Z) nq tq (first : bool) w pre :
  ∃ res w',
    (payload ← lift (build_page_payload self k from_date);
     req ← fetch (questions_url self) payload;
     if first then
       let questions := resp_text req in
       data ← lift (resp_json req);
       tquestions ← lift (py_getitem data "total");
       nquestions ← lift (py_getitem data "page_size");
       quota_remaining ← lift (py_getitem data "quota_remaining");
       quota_max ← lift (py_getitem data "quota_max");
       __log_status quota_remaining quota_max nquestions tquestions;;
       loop_head questions
         {| page := k; data := data; nquestions := nquestions; tquestions := tquestions |}
     else
       data ← lift (resp_json req);
       let questions := resp_text req in
       page_size ← lift (py_getitem data "page_size");
       nquestions ← lift (py_iadd nq page_size);
       quota_remaining ← lift (py_getitem data "quota_remaining");
       quota_max ← lift (py_getitem data "quota_max");
       __log_status quota_remaining quota_max nquestions tq;;
       loop_head questions
         {| page := k; data := data; nquestions := nquestions; tquestions := tq |})
      {| calls := calls w; trace := trace w ++ pre |} = (res, w')
    ∧ ((∃ e, build_page_payload self k from_date = Err e ∧ res = Err e
             ∧ w' = {| calls := calls w; trace := trace w ++ pre |})
       ∨ ∃ p evs,
           build_page_payload self k from_date = Ok p
           ∧ w' = {| calls := S (calls w);
                     trace := (trace w ++ pre) ++ EFetch (questions_url self) p :: evs |}
           ∧ landed self k (calls w) p (step_of res).1 (step_of res).2 evs).
Proof.
  unfold mbind, St_bind, lift, fetch. cbn [calls trace].
  destruct (build_page_payload self k from_date) as [p|e] eqn:Hp.
  2:{ eexists _, _. split; [reflexivity|]. left. eauto. }
  cbv beta iota.
  destruct (HttpClient_fetch (calls w) (questions_url self) p) as [r|e] eqn:Hr;
    cbv beta iota.
  2:{ destruct first; by called p (@nil event). }
  destruct first; cbv beta iota zeta.
  - destruct (resp_json r) as [d|e] eqn:Hj; cbv beta iota.
    2:{ by called p (@nil event). }
    finish_call p.
  - destruct (resp_json r) as [d|e] eqn:Hj; cbv beta iota.
    2:{ by called p (@nil event). }
    finish_call p.
Qed.

Lemma next_cases self from_date g w :
  g ≠ Closed →
  ∃ st g' w', next self from_date g w = (st, g', w')
              ∧ one_call self from_date g w st g' w'.
Proof.
  intros Hg. destruct g as [|fr|]; [| |done]; cbn [next].
  - destruct (call_cases self from_date 1 JNull JNull true w []) as (res & w' & Hrun & Hc).
    rewrite app_nil_r in Hrun. replace {| calls := calls w; trace := trace w |} with w in Hrun
      by (by destruct w).
    assert (get_questions_start self from_date w = (res, w')) as Hstart by exact Hrun.
    rewrite Hstart.
    exists (step_of res).1, (step_of res).2, w'. split.
    { by destruct res as [[[]|]|]. }
    destruct Hc as [(e & Hb & -> & ->)|(p & evs & Hb & -> & Hland)].
    + left. exists []. cbn. repeat split; try done. eauto.
    + right. exists p, [], evs. rewrite app_nil_r. done.
  - pose proof (call_cases self from_date (page fr + 1) (nquestions fr) (tquestions fr) false w)
      as Hrest.
    assert (∀ pre, unlogged pre = frame_sleep (Suspended fr) → transfers pre = [] →
              ready (calls w) (Suspended fr) = true →
              ∀ res w',
                (payload ← lift (build_page_payload self (page fr + 1) from_date);
                 req ← fetch (questions_url self) payload;
                 data ← lift (resp_json req);
                 let questions := resp_text req in
                 page_size ← lift (py_getitem data "page_size");
                 nquestions ← lift (py_iadd (nquestions fr) page_size);
                 quota_remaining ← lift (py_getitem data "quota_remaining");
                 quota_max ← lift (py_getitem data "quota_max");
                 __log_status quota_remaining quota_max nquestions (tquestions fr);;
                 loop_head questions
                   {| page := page fr + 1; data := data;
                      nquestions := nquestions; tquestions := tquestions fr |})
                  {| calls := calls w; trace := trace w ++ pre |} = (res, w') →
                one_call self from_date (Suspended fr) w (step_of res).1 (step_of res).2 w')
      as Hone.
    { intros pre Hpre Htr Hready res w' Hrun.
      destruct (Hrest pre) as (res' & w'' & Hrun' & Hc).
      pose proof (eq_trans (eq_sym Hrun') Hrun) as Heq. injection Heq as -> ->.
      destruct Hc as [(e & Hb & -> & ->)|(p & evs & Hb & -> & Hland)].
      - left. exists pre. cbn. repeat split; try done. right. eauto.
      - right. exists p, pre, evs. done. }
    assert (∀ res pre, (∀ v, res ≠ Ok (Some v)) → transfers pre = [] →
              ready (calls w) (Suspended fr) = false →
              one_call self from_date (Suspended fr) w (step_of res).1 (step_of res).2
                {| calls := calls w; trace := trace w ++ pre |}) as Hquit.
    { intros res pre Hres Hpre Hready.
      destruct res as [[v|]|e]; [by destruct (Hres v)| |];
        (left; exists pre; cbn [step_of fst snd]; repeat split; try done; eauto). }
    cut (∃ res w', get_questions_resume self from_date fr w = (res, w')
                   ∧ one_call self from_date (Suspended fr) w
                       (step_of res).1 (step_of res).2 w').
    { intros (res & w' & -> & Hc). exists (step_of res).1, (step_of res).2, w'.
      split; [by destruct res as [[[]|]|]|done]. }
    unfold get_questions_resume. cbn [ready frame_sleep] in *. unfold wants_more, may_sleep in *.
    unfold mbind at 1, St_bind at 1, lift at 1.
    destruct (py_getitem (data fr) "has_more") as [hm|].
    2:{ eexists _, _. split; [reflexivity|].
        replace w with {| calls := calls w; trace := trace w ++ [] |} at 2
          by (rewrite app_nil_r; by destruct w).
        by apply Hquit. }
    destruct (py_truthy hm).
    2:{ eexists _, _. split; [reflexivity|]. unfold mret, St_ret.
        replace w with {| calls := calls w; trace := trace w ++ [] |} at 2
          by (rewrite app_nil_r; by destruct w).
        by apply Hquit. }
    unfold mbind at 1, St_bind at 1, lift at 1.
    destruct (py_get (data fr) "backoff") as [b|].
    2:{ eexists _, _. split; [reflexivity|].
        replace w with {| calls := calls w; trace := trace w ++ [] |} at 2
          by (rewrite app_nil_r; by destruct w).
        by apply Hquit. }
    unfold mbind at 1, St_bind at 1. unfold backoff_ok in *.
    destruct (py_truthy b); cbn [negb orb andb] in *.
    + unfold mbind at 1, St_bind at 1, emit at 1.
      unfold mbind at 1, St_bind at 1, lift at 1.
      destruct (py_float b) as [secs|].
      2:{ eexists _, _. split; [reflexivity|]. by apply Hquit. }
      match goal with
      | |- context [time_sleep secs ?w0] =>
          destruct (time_sleep_cases secs w0) as [[Hs ->]|[Hs (e & _ & ->)]]
      end; cbn [calls] in Hs; rewrite Hs in *.
      * cbn [calls trace]. rewrite <- app_assoc.
        match goal with
        | |- context [?tail {| calls := calls w; trace := trace w ++ ?pre |}] =>
            destruct (tail {| calls := calls w; trace := trace w ++ pre |}) as [res w'] eqn:Hrun
        end.
        exists res, w'. split; [done|]. eapply Hone; [| | |exact Hrun]; done.
      * eexists _, _. split; [reflexivity|]. by apply Hquit.
    + unfold mret at 1, St_ret at 1.
      match goal with
      | |- context [?tail w] => destruct (tail w) as [res w'] eqn:Hrun
      end.
      exists res, w'. split; [done|]. eapply (Hone []); [done..|].
      rewrite app_nil_r. by destruct w.
Qed.
End Steps.

(** ** Runs against an arbitrary transport *)

Lemma slept_app a b : slept (a ++ b) = slept a ++ slept b.
Proof. apply omap_app. Qed.

Section RunsProofs.
Context `{PyRuntime} `{Perceval}.

Lemma transfers_frame_sleep g : transfers (frame_sleep g) = [].
Proof.
  destruct g as [|fr|]; [done| |done]. cbn [frame_sleep].
  destruct (py_get _ _); [|done]. destruct (py_truthy _); [|done].
  by destruct (py_float _).
Qed.

Lemma landed_effects self k c p st g' evs :
  landed self k c p st g' evs →
  fetched evs = []
  ∧ ((∃ q, st = Yield q ∧ yielded evs = [q]) ∨ ((∀ q, st ≠ Yield q) ∧ yielded evs = [])).
Proof.
  unfold landed. destruct (HttpClient_fetch _ _ _) as [r|e].
  - destruct (resp_json r) as [d|e].
    + intros [(fr & -> & -> & _ & _ & Htr & _)|(Hst & -> & Htr)].
      * split; [by rewrite <- fetched_transfers, Htr|]. left. eexists. split; [done|].
        by rewrite <- yielded_transfers, Htr.
      * split; [by apply transfers_nil_fetched|]. right. split; [done|].
        by apply transfers_nil_yielded.
    + intros (-> & -> & ->). split; [done|]. by right.
  - intros (-> & -> & ->). split; [done|]. by right.
Qed.

Lemma next_sound self from_date g w st g' w' :
  sound self from_date g w →
  next self from_date g w = (st, g', w') →
  sound self from_date g' w'.
Proof.
  intros (Hlen & Hbuilt & Hyield & Hg) Hnext.
  assert (g = Closed ∨ g ≠ Closed) as [->|Hopen] by (destruct g; eauto).
  { cbn in Hnext. injection Hnext as <- <- <-. done. }
  destruct (next_cases self from_date g w Hopen) as (st0 & g0 & w0 & Hnext' & Hone).
  rewrite Hnext in Hnext'. injection Hnext' as <- <- <-.
  assert (length (yielded (trace w)) = calls w ∧ next_page g = Z.of_nat (calls w) + 1)
    as [Hy Hpage].
  { destruct g as [|fr|]; [| |done].
    - destruct Hg as [Hc Hy]. by rewrite Hc, Hy.
    - destruct Hg as (Hp & Hy & _). cbn [next_page]. by rewrite Hp, Hy. }
  destruct Hone as [(pre & -> & Hst & -> & Hpre & _)|(p & pre & evs & _ & Hp & Hpre & -> & Hland)].
  - (* no request *)
    cbn [calls trace]. unfold sound. cbn [calls trace].
    rewrite fetched_app, yielded_app, (transfers_nil_fetched _ Hpre),
      (transfers_nil_yielded _ Hpre), !app_nil_r.
    split; [done|]. split; [done|]. split; [done|]. lia.
  - assert (transfers pre = []) as Htp.
    { by rewrite <- transfers_unlogged, Hpre, transfers_frame_sleep. }
    destruct (landed_effects _ _ _ _ _ _ _ Hland) as [Hfe Hye].
    assert (fetched ((trace w ++ pre) ++ EFetch (questions_url self) p :: evs)
            = fetched (trace w) ++ [p]) as Hf'.
    { rewrite !fetched_app, (transfers_nil_fetched _ Htp), app_nil_r.
      change (EFetch (questions_url self) p :: evs) with ([EFetch (questions_url self) p] ++ evs).
      by rewrite fetched_app, Hfe. }
    assert (yielded ((trace w ++ pre) ++ EFetch (questions_url self) p :: evs)
            = yielded (trace w) ++ yielded evs) as Hy'.
    { rewrite !yielded_app, (transfers_nil_yielded _ Htp), app_nil_r.
      change (EFetch (questions_url self) p :: evs) with ([EFetch (questions_url self) p] ++ evs).
      by rewrite yielded_app. }
    unfold sound. cbn [calls trace]. rewrite Hf', Hy'.
    split; [rewrite length_app; cbn; lia|].
    split.
    { intros i p0 Hi. apply lookup_app_Some in Hi as [Hi|[Hge Hi]]; [by apply Hbuilt|].
      apply list_lookup_singleton_Some in Hi as [Hi <-].
      replace (Z.of_nat i) with (Z.of_nat (calls w)) by lia. by rewrite <- Hpage. }
    assert (∀ (i : nat) q, yielded (trace w) !! i = Some q →
              q ≠ EmptyString
              ∧ ∃ p0 r, (fetched (trace w) ++ [p]) !! i = Some p0
                        ∧ HttpClient_fetch i (questions_url self) p0 = Ok r
                        ∧ resp_text r = q ∧ is_ok (resp_json r) = true) as Hold.
    { intros i q Hi. destruct (Hyield i q Hi) as (Hq & p0 & r & Hp0 & Hr & Ht & Hj).
      split; [done|]. exists p0, r. split; [|done]. by apply lookup_app_l_Some. }
    unfold landed in Hland.
    destruct (HttpClient_fetch (calls w) (questions_url self) p) as [r|e] eqn:Hr.
    2:{ destruct Hland as (-> & -> & ->). cbn. rewrite app_nil_r.
        split; [done|]. lia. }
    destruct (resp_json r) as [d|e] eqn:Hj.
    2:{ destruct Hland as (-> & -> & ->). cbn. rewrite app_nil_r.
        split; [done|]. lia. }
    destruct Hland as [(fr & -> & -> & Hk & Hd & Htr & Hq)|(Hst & -> & Htr)].
    + assert (yielded evs = [resp_text r]) as -> by (by rewrite <- yielded_transfers, Htr).
      split.
      { intros i q Hi. apply lookup_app_Some in Hi as [Hi|[Hge Hi]]; [by apply Hold|].
        apply list_lookup_singleton_Some in Hi as [Hi <-].
        split; [done|]. exists p, r.
        assert (i = calls w) as -> by lia.
        split; [apply list_lookup_middle; lia|]. split; [done|]. split; [done|].
        by rewrite Hj. }
      split; [lia|]. split; [rewrite length_app; cbn; lia|].
      exists p, r. rewrite last_snoc. cbn [pred]. rewrite Hj, Hd. done.
    + assert (yielded evs = []) as -> by (by apply transfers_nil_yielded).
      rewrite app_nil_r. split; [done|]. lia.
Qed.

Lemma sound_start self from_date : sound self from_date Created world0.
Proof. repeat split; try done. Qed.

Lemma next_closed self from_date g w st g' w' :
  next self from_date g w = (st, g', w') → (∀ q, st ≠ Yield q) → g' = Closed.
Proof.
  destruct g as [|fr|]; cbn [next].
  - destruct (get_questions_start self from_date w) as [[[[q fr]|]|e] w1];
      intros [= <- <- <-] Hst; [by destruct (Hst q)|done..].
  - destruct (get_questions_resume self from_date fr w) as [[[[q fr']|]|e] w1];
      intros [= <- <- <-] Hst; [by destruct (Hst q)|done..].
  - by intros [= <- <- <-].
Qed.

Lemma consume_sound self from_date fuel :
  ∀ g w res w',
    sound self from_date g w →
    consume fuel self from_date g w = Some (res, w') →
    sound self from_date Closed w'.
Proof.
  induction fuel as [|fuel IH]; intros g w res w' Hs Hrun; [done|].
  cbn [consume] in Hrun.
  destruct (next self from_date g w) as [[st g1] w1] eqn:Hnext.
  pose proof (next_sound _ _ _ _ _ _ _ Hs Hnext) as Hs1.
  destruct st as [q| |e]; [by eapply IH|..]; injection Hrun as <- <-;
    by rewrite (next_closed _ _ _ _ _ _ _ Hnext) in Hs1.
Qed.

Ltac take_done :=
  split; [done|]; split; [done|]; split; [cbn; lia|];
  split; cbn; intros; first [lia|done].

Lemma take_sound self from_date n :
  ∀ g w qs g' w',
    sound self from_date g w →
    take_pages n self from_date g w = (qs, g', w') →
    sound self from_date g' w'
    ∧ yielded (trace w') = yielded (trace w) ++ qs
    ∧ (length qs <= n)%nat
    ∧ ((length qs < n)%nat → g' = Closed)
    ∧ (length qs = n → n ≠ 0%nat → ∃ fr, g' = Suspended fr).
Proof.
  induction n as [|n IH]; intros g w qs g' w' Hs Hrun.
  { injection Hrun as <- <- <-. rewrite app_nil_r. take_done. }
  cbn [take_pages] in Hrun.
  destruct (next self from_date g w) as [[st g1] w1] eqn:Hnext.
  pose proof (next_sound _ _ _ _ _ _ _ Hs Hnext) as Hs1.
  assert (g = Closed ∨ g ≠ Closed) as [->|Hopen] by (destruct g; eauto).
  { cbn in Hnext. injection Hnext as <- <- <-. injection Hrun as <- <- <-.
    rewrite app_nil_r. take_done. }
  destruct (next_cases self from_date g w Hopen) as (st0 & g0 & w0 & Hnext' & Hone).
  rewrite Hnext in Hnext'. injection Hnext' as <- <- <-.
  assert (match st with
          | Yield q => yielded (trace w1) = yielded (trace w) ++ [q] ∧ ∃ fr, g1 = Suspended fr
          | _ => yielded (trace w1) = yielded (trace w)
          end) as Hy.
  { destruct Hone as [(pre & -> & Hst & -> & Hpre & _)|(p & pre & evs & _ & Hp & Hpre & -> & Hland)].
    - cbn [trace]. rewrite yielded_app, (transfers_nil_yielded _ Hpre), app_nil_r.
      destruct st as [q| |]; [by destruct (Hst q)|done..].
    - assert (transfers pre = []) as Htp
          by (by rewrite <- transfers_unlogged, Hpre, transfers_frame_sleep).
      cbn [trace].
      change (EFetch (questions_url self) p :: evs) with ([EFetch (questions_url self) p] ++ evs).
      rewrite !yielded_app, (transfers_nil_yielded _ Htp), !app_nil_r. cbn [yielded omap app].
      destruct (landed_effects _ _ _ _ _ _ _ Hland) as [_ [(q & -> & ->)|[Hst ->]]].
      + split; [done|]. unfold landed in Hland.
        destruct (HttpClient_fetch _ _ _) as [r|]; [|by destruct Hland].
        destruct (resp_json r); [|by destruct Hland].
        destruct Hland as [(fr & _ & -> & _)|(Hst & _)]; [eauto|by destruct (Hst q)].
      + rewrite app_nil_r. destruct st as [q| |]; [by destruct (Hst q)|done..]. }
  destruct st as [q| |e].
  - destruct (take_pages n self from_date g1 w1) as [[qs1 g2] w2] eqn:Htake.
    injection Hrun as <- <- <-.
    destruct (IH _ _ _ _ _ Hs1 Htake) as (Hs2 & Hy2 & Hle & Hlt & Heq).
    destruct Hy as [Hy [fr ->]].
    split; [done|]. split; [by rewrite Hy2, Hy, <- app_assoc|].
    split; [cbn; lia|]. split; [intros; apply Hlt; cbn in *; lia|].
    intros Hlen _. cbn in Hlen. destruct n as [|n].
    + destruct qs1; [|done]. injection Htake as <- <-. eauto.
    + apply Heq; lia.
  - injection Hrun as <- <- <-. rewrite app_nil_r.
    rewrite (next_closed _ _ _ _ _ _ _ Hnext) in * by done.
    take_done.
  - injection Hrun as <- <- <-. rewrite app_nil_r.
    rewrite (next_closed _ _ _ _ _ _ _ Hnext) in * by done.
    take_done.
Qed.

(** X13.  Whatever the transport answers, in every run of
    [get_questions] that ends, normally or not, the trace holds one fetch
    per transport call, and the [i]-th call (from 0) carries the payload
    built for page [i + 1]: pages are requested in order, none skipped,
    none repeated. *)
Theorem calls_are_numbered self from_date fuel res w :
  get_questions fuel self from_date = Some (res, w) →
  length (fetched (trace w)) = calls w
  ∧ ∀ (i : nat) p, fetched (trace w) !! i = Some p →
      build_page_payload self (Z.of_nat i + 1) from_date = Ok p
      ∧ p !! PPAGE = Some (JInt (Z.of_nat i + 1)).
Proof.
  intros Hrun.
  destruct (consume_sound _ _ _ _ _ _ _ (sound_start self from_date) Hrun)
    as (Hlen & Hbuilt & _).
  split; [done|]. intros i p Hi. split; [by apply Hbuilt|].
  eapply build_page_payload_page. by apply Hbuilt.
Qed.


(** X15.  Whatever the transport answers, a run of [get_questions]
    that has ended has made at least as many calls as it yielded pages and
    at most one more. *)
Theorem calls_follow_yields self from_date fuel res w :
  get_questions fuel self from_date = Some (res, w) →
  (length (yielded (trace w)) <= calls w <= S (length (yielded (trace w))))%nat.
Proof.
  intros Hrun.
  by destruct (consume_sound _ _ _ _ _ _ _ (sound_start self from_date) Hrun)
    as (_ & _ & _ & ?).
Qed.

(** X16.  Pages are fetched on demand: a consumer that takes at most
    [n] pages from a fresh generator causes at most [n] transport calls,
    and exactly [n] when it got [n] pages; the pages it got are the ones
    yielded. *)
Theorem take_is_lazy self from_date n qs g w :
  take_pages n self from_date Created world0 = (qs, g, w) →
  yielded (trace w) = qs
  ∧ (calls w <= n)%nat
  ∧ (length qs = n → calls w = n).
Proof.
  intros Hrun.
  destruct (take_sound _ _ _ _ _ _ _ _ (sound_start self from_date) Hrun)
    as (Hs & Hy & Hle & Hlt & Heq).
  split; [done|]. cbn in Hy. subst qs.
  destruct Hs as (_ & _ & _ & Hg).
  assert (length (yielded (trace w)) = n → calls w = n) as Hfull.
  { intros Hn. destruct n as [|n].
    - injection Hrun as _ <- <-. done.
    - destruct (Heq Hn) as [fr ->]; [done|]. destruct Hg as (_ & Hc & _). lia. }
  split; [|done].
  destruct (decide (length (yielded (trace w)) = n)) as [Hn|Hn]; [by rewrite Hfull|].
  rewrite Hlt in Hg by lia. lia.
Qed.
End RunsProofs.

(** ** Failures after served pages *)

Section Failures.
Context `{PyRuntime} `{Perceval}.

Lemma schedule_snoc url reqs :
  ∀ prev p r,
    schedule url prev (reqs ++ [(p, r)])
    = schedule url prev reqs
      ++ from_option backoff_sleep []
           (match last reqs with Some q => Some q.2 | None => prev end)
      ++ [EFetch url p; EYield (resp_text r)].
Proof.
  induction reqs as [|[p0 r0] reqs IH]; intros prev p r.
  - cbn. by rewrite ?app_nil_r.
  - cbn [app schedule]. rewrite IH, last_cons, <- !app_assoc. cbn [app].
    by destruct (last reqs).
Qed.

(** The state reached once the pages [reqs] are served and yielded. *)
Lemma served_state self from_date reqs :
  serves self from_date 0 reqs →
  (∀ q, last reqs = Some q → has_more_of q.2 = true) →
  ∃ g w,
    (∀ fuel, get_questions (length reqs + fuel) self from_date
             = consume fuel self from_date g w)
    ∧ calls w = length reqs
    ∧ unlogged (trace w) = schedule (questions_url self) None reqs
    ∧ match last reqs with
      | None => g = Created
      | Some q => ∃ fr, g = Suspended fr
                        ∧ frame_ok fr q.2 (Z.of_nat (length reqs))
                        ∧ well_formed (length reqs) q.2 = true
                        ∧ has_more_of q.2 = true
      end.
Proof.
  intros Hserves Hmore. destruct reqs as [|q reqs].
  - by exists Created, world0.
  - destruct (run_prefix _ _ _ _ Hserves) as (fr & w & Hrun & Hc & Htr & Hfr & Hwf).
    exists (Suspended fr), w. split; [done|]. split; [done|]. split; [done|].
    pose proof (Hmore (default q (last reqs))) as Hq.
    rewrite last_cons in *. destruct (last reqs) as [q'|]; cbn in Hfr, Hwf, Hq |- *;
      (exists fr; split; [done|]; split; [done|]; split; [done|]; by apply Hq).
Qed.

Lemma resume_ready fr r k n :
  frame_ok fr r k → well_formed n r = true → has_more_of r = true →
  ready n (Suspended fr) = true
  ∧ next_page (Suspended fr) = k + 1
  ∧ frame_sleep (Suspended fr) = backoff_sleep r.
Proof.
  intros (Hk & Hd & _) Hwf Hmore.
  destruct (well_formed_inv _ _ Hwf) as (kvs & ? & ? & ? & ? & ? & Hjs & _ & _ & _ & _ & _ & Hb).
  unfold ready, wants_more, may_sleep, next_page, frame_sleep, backoff_sleep, backoff_of.
  unfold has_more_of in Hmore. rewrite Hd, Hk.
  unfold envelope in *. rewrite Hjs in *. cbn [py_get].
  destruct (py_getitem (JDict kvs) "has_more"); [|done].
  by rewrite Hmore, Hb.
Qed.

Lemma served_ready (reqs : list (gmap string json * response)) g :
  match last reqs with
  | None => g = Created
  | Some q => ∃ fr, g = Suspended fr
                    ∧ frame_ok fr q.2 (Z.of_nat (length reqs))
                    ∧ well_formed (length reqs) q.2 = true
                    ∧ has_more_of q.2 = true
  end →
  g ≠ Closed ∧ ready (length reqs) g = true
  ∧ next_page g = Z.of_nat (length reqs) + 1
  ∧ frame_sleep g = from_option backoff_sleep [] (snd <$> last reqs).
Proof.
  destruct (last reqs) as [q|] eqn:Hlast.
  - intros (fr & -> & Hfr & Hwf & Hmore).
    destruct (resume_ready _ _ _ _ Hfr Hwf Hmore) as (? & ? & ?). by repeat split.
  - intros ->. apply last_None in Hlast as ->. by repeat split.
Qed.

(** A request the transport or [json()] fails. *)
Lemma failed_call self from_date g w p e :
  g ≠ Closed → ready (calls w) g = true →
  build_page_payload self (next_page g) from_date = Ok p →
  (HttpClient_fetch (calls w) (questions_url self) p ≫= resp_json) = Err e →
  ∃ pre, next self from_date g w
         = (Raise e, Closed,
            {| calls := S (calls w);
               trace := (trace w ++ pre) ++ [EFetch (questions_url self) p] |})
         ∧ unlogged pre = frame_sleep g.
Proof.
  intros Hopen Hready Hp Hfail.
  destruct (next_cases self from_date g w Hopen) as (st & g' & w' & -> & Hone).
  destruct Hone as [(pre & _ & _ & _ & _ & [Hr|(e' & Hp' & _)])
                   |(p' & pre & evs & _ & Hp' & Hpre & -> & Hland)]; [congruence..|].
  rewrite Hp in Hp'. injection Hp' as <-.
  exists pre. split; [|done]. unfold landed in Hland.
  destruct (HttpClient_fetch _ _ _) as [r|e0]; cbn in Hfail.
  - rewrite Hfail in Hland. by destruct Hland as (-> & -> & ->).
  - injection Hfail as ->. by destruct Hland as (-> & -> & ->).
Qed.

Lemma failed_run self from_date reqs p e fuel :
  serves self from_date 0 reqs →
  (∀ q, last reqs = Some q → has_more_of q.2 = true) →
  build_page_payload self (Z.of_nat (length reqs) + 1) from_date = Ok p →
  (HttpClient_fetch (length reqs) (questions_url self) p ≫= resp_json) = Err e →
  (length reqs < fuel)%nat →
  ∃ w, get_questions fuel self from_date = Some (Some e, w)
       ∧ calls w = S (length reqs)
       ∧ unlogged (trace w)
         = schedule (questions_url self) None reqs
           ++ from_option backoff_sleep [] (snd <$> last reqs)
           ++ [EFetch (questions_url self) p].
Proof.
  intros Hserves Hmore Hp Hfail Hfuel.
  destruct (served_state _ _ _ Hserves Hmore) as (g & w & Hrun & Hc & Htr & Hg).
  destruct (served_ready _ _ Hg) as (Hopen & Hready & Hk & Hsl).
  rewrite <- Hk in Hp. rewrite <- Hc in Hfail, Hready.
  destruct (failed_call _ _ _ _ _ _ Hopen Hready Hp Hfail) as (pre & Hnext & Hpre).
  eexists. split; [|split].
  - replace fuel with (length reqs + S (fuel - S (length reqs)))%nat by lia.
    rewrite Hrun. cbn [consume]. by rewrite Hnext.
  - cbn. by rewrite Hc.
  - cbn [trace]. rewrite !unlogged_app, Htr, Hpre, Hsl, <- app_assoc. done.
Qed.

(** C10.  An empty response body ends the pages, and it does so by the
    exception of [json()].  From any state of the generator, if the
    transport answers the next request with an empty body, the iteration
    ends at that resumption, yields nothing more and makes at most that
    one call, whatever the envelope would say about [has_more].  When the
    empty body follows the served pages [reqs] (none for page 1), the
    request is made; [json()] decodes the body, the decoder raises on the
    empty text, and the iteration ends with that exception: only the
    earlier pages were yielded. *)
Theorem empty_body_ends_pages :
  (∀ self from_date g w fuel,
      (0 < fuel)%nat → blank_next w →
      ∃ e w', consume fuel self from_date g w = Some (e, w')
              ∧ yielded (trace w') = yielded (trace w)
              ∧ (calls w' <= S (calls w))%nat)
  ∧ (∀ self from_date reqs p r e fuel,
      serves self from_date 0 reqs →
      (∀ q, last reqs = Some q → has_more_of q.2 = true) →
      build_page_payload self (Z.of_nat (length reqs) + 1) from_date = Ok p →
      HttpClient_fetch (length reqs) (questions_url self) p = Ok r →
      resp_text r = EmptyString →
      resp_json r = json_loads (resp_text r) →
      json_loads EmptyString = Err e →
      (length reqs < fuel)%nat →
      ∃ w, get_questions fuel self from_date = Some (Some e, w)
           ∧ calls w = S (length reqs)
           ∧ fetched (trace w) = reqs.*1 ++ [p]
           ∧ yielded (trace w) = resp_text <$> reqs.*2).
Proof.
  split.
  - intros self from_date g w [|fuel] Hfuel Hblank; [lia|].
    destruct g as [|fr|]; cbn [consume next].
    + destruct (start_blank self from_date w Hblank)
        as (res & w' & -> & Hres & Hc & evs & Htr & Hy).
      destruct res as [[[q fr]|]|e]; [by destruct (Hres (q, fr))| |];
        eexists _, _; (split; [done|]); by rewrite Htr, yielded_app, Hy, app_nil_r.
    + destruct (resume_blank self from_date fr w Hblank)
        as (res & w' & -> & Hres & Hc & evs & Htr & Hy).
      destruct res as [[[q fr']|]|e]; [by destruct (Hres (q, fr'))| |];
        eexists _, _; (split; [done|]); by rewrite Htr, yielded_app, Hy, app_nil_r.
    + eexists _, _. split; [done|]. split; [done|lia].
  - intros self from_date reqs p r e fuel Hs Hlast Hp Hr Htext Hjs He Hfuel.
    destruct (failed_run self from_date reqs p e fuel) as (w & Hrun & Hc & Htr); try done.
    { rewrite Hr. cbn. by rewrite Hjs, Htext. }
    exists w. split; [done|]. split; [done|].
    rewrite <- fetched_transfers, <- yielded_transfers, <- transfers_unlogged, Htr.
    rewrite !transfers_app, transfers_schedule.
    assert (transfers (from_option backoff_sleep [] (snd <$> last reqs)) = []) as ->.
    { destruct (last reqs); [apply transfers_backoff_sleep|done]. }
    rewrite fetched_app, yielded_app.
    rewrite <- transfers_schedule with (prev := None).
    rewrite fetched_transfers, yielded_transfers, fetched_schedule, yielded_schedule.
    cbn. by rewrite app_nil_r.
Qed.

(** X17.  An exception of the transport ends the run as it is,
    without a retry: after the pages served so far (the last of which
    announces more), when the call for the next page raises [e], the run
    ends with [e] after that one call, the backoff asked for having been
    slept, and nothing is yielded for it. *)
Theorem transport_error_propagates self from_date reqs p e fuel :
  serves self from_date 0 reqs →
  (∀ q, last reqs = Some q → has_more_of q.2 = true) →
  build_page_payload self (Z.of_nat (length reqs) + 1) from_date = Ok p →
  HttpClient_fetch (length reqs) (questions_url self) p = Err e →
  (length reqs < fuel)%nat →
  ∃ w, get_questions fuel self from_date = Some (Some e, w)
       ∧ calls w = S (length reqs)
       ∧ unlogged (trace w)
         = schedule (questions_url self) None reqs
           ++ from_option backoff_sleep [] (snd <$> last reqs)
           ++ [EFetch (questions_url self) p].
Proof.
  intros Hserves Hmore Hp Hfail. apply failed_run; try done. by rewrite Hfail.
Qed.

(** X18.  A response whose body does not decode is not yielded: when
    [json()] raises [e] on the response to the next page, the run ends with
    [e] right after the call and the body is dropped, although [req.text]
    was available. *)
Theorem undecodable_page_is_dropped self from_date reqs p r e fuel :
  serves self from_date 0 reqs →
  (∀ q, last reqs = Some q → has_more_of q.2 = true) →
  build_page_payload self (Z.of_nat (length reqs) + 1) from_date = Ok p →
  HttpClient_fetch (length reqs) (questions_url self) p = Ok r →
  resp_json r = Err e →
  (length reqs < fuel)%nat →
  ∃ w, get_questions fuel self from_date = Some (Some e, w)
       ∧ calls w = S (length reqs)
       ∧ unlogged (trace w)
         = schedule (questions_url self) None reqs
           ++ from_option backoff_sleep [] (snd <$> last reqs)
           ++ [EFetch (questions_url self) p].
Proof.
  intros Hserves Hmore Hp Hr Hfail. apply failed_run; try done. by rewrite Hr.
Qed.
End Failures.

(** ** Envelopes that lack a field *)

Section Envelopes.
Context `{PyRuntime} `{Perceval}.

(** One more page, of which only the counters are known to be in order. *)
Lemma page_after self from_date reqs p r :
  serves self from_date 0 reqs →
  (∀ q, last reqs = Some q → has_more_of q.2 = true) →
  build_page_payload self (Z.of_nat (length reqs) + 1) from_date = Ok p →
  HttpClient_fetch (length reqs) (questions_url self) p = Ok r →
  counters_ok r = true → resp_text r ≠ EmptyString →
  ∃ fr w,
    (∀ fuel, get_questions (S (length reqs) + fuel) self from_date
             = consume fuel self from_date (Suspended fr) w)
    ∧ calls w = S (length reqs)
    ∧ unlogged (trace w) = schedule (questions_url self) None (reqs ++ [(p, r)])
    ∧ frame_ok fr r (Z.of_nat (length reqs) + 1).
Proof.
  intros Hserves Hmore Hp Hr Hcnt Htext.
  destruct (served_state _ _ _ Hserves Hmore) as (g & w & Hrun & Hc & Htr & Hg).
  assert (negb (String.eqb (resp_text r) EmptyString) = true) as Hne
      by (by destruct (String.eqb_spec (resp_text r) EmptyString)).
  rewrite <- Hc in Hr.
  assert (∃ fr' evs,
             next self from_date g w
             = (Yield (resp_text r), Suspended fr',
                {| calls := S (calls w); trace := trace w ++ evs |})
             ∧ unlogged evs
               = from_option backoff_sleep [] (snd <$> last reqs)
                 ++ [EFetch (questions_url self) p; EYield (resp_text r)]
             ∧ frame_ok fr' r (Z.of_nat (length reqs) + 1))
    as (fr' & evs & Hnext & Hevs & Hfr').
  { destruct (last reqs) as [q|] eqn:Hlast.
    - destruct Hg as (fr & -> & Hfr & Hwf & Hm). rewrite <- Hc in Hwf.
      destruct (resume_step self from_date fr q.2 _ w p r Hfr Hwf Hm Hp Hr Hcnt)
        as (fr' & evs & Hres & Hevs & Hfr').
      rewrite Hne in Hres, Hevs. exists fr', evs. cbn [next]. by rewrite Hres.
    - subst g. apply last_None in Hlast. subst reqs.
      destruct (start_step self from_date w p r Hp Hr Hcnt) as (fr' & evs & Hres & Hevs & Hfr').
      rewrite Hne in Hres, Hevs. exists fr', evs. cbn [next]. by rewrite Hres. }
  exists fr', {| calls := S (calls w); trace := trace w ++ evs |}.
  split; [|split; [|split]].
  - intros fuel. change (S (length reqs) + fuel)%nat with (S (length reqs + fuel)).
    rewrite <- Nat.add_succ_r, Hrun. cbn [consume]. by rewrite Hnext.
  - cbn. by rewrite Hc.
  - cbn [trace]. rewrite unlogged_app, Htr, Hevs, schedule_snoc.
    by destruct (last reqs).
  - done.
Qed.

(** X19.  [has_more] is read only after the page is handed over: a
    page whose envelope has the counters but no [has_more] is yielded, and
    the run then ends with [KeyError] on [has_more], without a further
    call. *)
Theorem missing_has_more_raises self from_date reqs p r fuel :
  serves self from_date 0 reqs →
  (∀ q, last reqs = Some q → has_more_of q.2 = true) →
  build_page_payload self (Z.of_nat (length reqs) + 1) from_date = Ok p →
  HttpClient_fetch (length reqs) (questions_url self) p = Ok r →
  counters_ok r = true → resp_text r ≠ EmptyString →
  is_ok (py_getitem (envelope r) "has_more") = false →
  (S (length reqs) < fuel)%nat →
  ∃ w, get_questions fuel self from_date = Some (Some (KeyError "has_more"), w)
       ∧ calls w = S (length reqs)
       ∧ unlogged (trace w) = schedule (questions_url self) None (reqs ++ [(p, r)]).
Proof.
  intros Hserves Hmore Hp Hr Hcnt Htext Hmiss Hfuel.
  destruct (page_after _ _ _ _ _ Hserves Hmore Hp Hr Hcnt Htext)
    as (fr & w & Hrun & Hc & Htr & _ & Hd & _).
  exists w. split; [|done].
  replace fuel with (S (length reqs) + S (fuel - S (S (length reqs))))%nat by lia.
  rewrite Hrun. cbn [consume next]. unfold get_questions_resume.
  unfold mbind at 1, St_bind at 1, lift at 1. rewrite Hd.
  destruct (counters_ok_inv _ Hcnt) as (kvs & ? & ? & ? & ? & Hjs & _).
  unfold envelope in *. rewrite Hjs in *. cbn [py_getitem] in *.
  by destruct (assoc "has_more" kvs).
Qed.

(** X20.  A backoff that cannot be slept ends the run before the next
    request: when a yielded page announces more and carries a truthy
    backoff that [float] rejects or [time.sleep] refuses at that point,
    the run ends with the exception of [float] or of [time.sleep], with
    the page yielded and no further call. *)
Theorem bad_backoff_stops self from_date reqs p r fuel :
  serves self from_date 0 reqs →
  (∀ q, last reqs = Some q → has_more_of q.2 = true) →
  build_page_payload self (Z.of_nat (length reqs) + 1) from_date = Ok p →
  HttpClient_fetch (length reqs) (questions_url self) p = Ok r →
  counters_ok r = true → resp_text r ≠ EmptyString →
  has_more_of r = true →
  backoff_ok (S (length reqs)) (backoff_of r) = false →
  (S (length reqs) < fuel)%nat →
  ∃ e w, get_questions fuel self from_date = Some (Some e, w)
         ∧ (py_float (backoff_of r) ≫= sleep_check (S (length reqs))) = Err e
         ∧ calls w = S (length reqs)
         ∧ unlogged (trace w) = schedule (questions_url self) None (reqs ++ [(p, r)]).
Proof.
  intros Hserves Hmore Hp Hr Hcnt Htext Hhas Hbad Hfuel.
  destruct (page_after _ _ _ _ _ Hserves Hmore Hp Hr Hcnt Htext)
    as (fr & w & Hrun & Hc & Htr & _ & Hd & _).
  replace fuel with (S (length reqs) + S (fuel - S (S (length reqs))))%nat by lia.
  rewrite Hrun. cbn [consume next]. unfold get_questions_resume.
  unfold mbind at 1, St_bind at 1, lift at 1. rewrite Hd.
  destruct (counters_ok_inv _ Hcnt) as (kvs & ? & ? & ? & ? & Hjs & _).
  unfold has_more_of, backoff_of, backoff_ok in *.
  unfold envelope in *. rewrite Hjs in *. cbn [py_get] in *.
  destruct (py_getitem (JDict kvs) "has_more") as [hm|]; [|done].
  cbv beta iota. rewrite Hhas.
  unfold mbind at 1, St_bind at 1, lift at 1. cbv beta iota.
  set (b := default JNull (assoc "backoff" kvs)) in *.
  destruct (py_truthy b); [|done].
  unfold mbind at 1, St_bind at 1. unfold mbind at 1, St_bind at 1.
  unfold emit at 1. cbv beta iota.
  unfold mbind at 1, St_bind at 1, lift at 1.
  destruct (py_float b) as [secs|e] eqn:Hfl; cbv beta iota.
  - destruct (time_sleep_cases secs {| calls := calls w; trace := trace w ++ [ELog DEBUG ("Expensive query. Wait " +:+ py_str b +:+ " secs to send a new request")] |})
      as [[Hs _]|[_ (e & Hchk & He)]].
    { cbn [calls] in Hs. rewrite Hc in Hs. by rewrite Hs in Hbad. }
    rewrite He. cbv beta iota. cbn [calls] in Hchk. rewrite Hc in Hchk.
    exists e. eexists. split; [reflexivity|]. split; [exact Hchk|]. split; [done|].
    cbn [trace]. by rewrite unlogged_app, app_nil_r.
  - exists e. eexists. split; [reflexivity|]. split; [done|]. split; [done|].
    cbn [trace]. by rewrite unlogged_app, app_nil_r.
Qed.

(** X21.  The counters of the first envelope are read before anything
    is yielded: when the first response decodes to an object that lacks
    [total], [page_size], [quota_remaining] or [quota_max], the run ends
    with [KeyError] on a missing one of them after a single call, and the
    trace holds that call only, neither a log record nor the page. *)
Theorem first_envelope_is_checked self from_date p r kvs k fuel :
  build_page_payload self 1 from_date = Ok p →
  HttpClient_fetch 0 (questions_url self) p = Ok r →
  resp_json r = Ok (JDict kvs) →
  k ∈ ["total"; "page_size"; "quota_remaining"; "quota_max"] →
  assoc k kvs = None →
  ∃ k' w, get_questions (S fuel) self from_date = Some (Some (KeyError k'), w)
          ∧ k' ∈ ["total"; "page_size"; "quota_remaining"; "quota_max"]
          ∧ assoc k' kvs = None
          ∧ calls w = 1%nat
          ∧ trace w = [EFetch (questions_url self) p].
Proof.
  intros Hp Hr Hjs Hk Hmiss.
  unfold get_questions. cbn [consume next]. unfold get_questions_start.
  unfold mbind at 1, St_bind at 1, lift at 1. rewrite Hp. cbv beta iota.
  unfold mbind at 1, St_bind at 1, fetch at 1. cbn [calls trace world0].
  rewrite Hr. cbv beta iota.
  unfold mbind at 1, St_bind at 1, lift at 1. rewrite Hjs. cbv beta iota.
  cbn [py_getitem].
  destruct (assoc "total" kvs) eqn:Ht; cbv beta iota;
    [|exists "total"; eexists; split; [reflexivity|];
      split; [by repeat constructor|done]].
  unfold mbind at 1, St_bind at 1, lift at 1. cbv beta iota.
  unfold mbind at 1, St_bind at 1, lift at 1.
  destruct (assoc "page_size" kvs) eqn:Hps; cbv beta iota;
    [|exists "page_size"; eexists; split; [reflexivity|];
      split; [by repeat constructor|done]].
  unfold mbind at 1, St_bind at 1, lift at 1.
  destruct (assoc "quota_remaining" kvs) eqn:Hqr; cbv beta iota;
    [|exists "quota_remaining"; eexists; split; [reflexivity|];
      split; [by repeat constructor|done]].
  unfold mbind at 1, St_bind at 1, lift at 1.
  destruct (assoc "quota_max" kvs) eqn:Hqm; cbv beta iota;
    [|exists "quota_max"; eexists; split; [reflexivity|];
      split; [by repeat constructor|done]].
  rewrite !elem_of_cons, elem_of_nil in Hk.
  destruct Hk as [->|[->|[->|[->|[]]]]]; congruence.
Qed.
End Envelopes.

(** ** Whole runs *)

Lemma slept_unlogged tr : slept (unlogged tr) = slept tr.
Proof.
  unfold slept, unlogged.
  induction tr as [|[] tr IH]; cbn in *; by rewrite ?IH.
Qed.

Section Whole.
Context `{PyRuntime} `{Perceval}.

Lemma slept_schedule url reqs :
  ∀ prev,
    reqs ≠ [] →
    slept (schedule url prev reqs)
    = slept (from_option backoff_sleep [] prev)
      ++ flat_map (λ q, slept (backoff_sleep q.2)) (removelast reqs).
Proof.
  induction reqs as [|[p r] reqs IH]; intros prev Hne; [done|].
  cbn [schedule]. rewrite !slept_app. f_equal.
  destruct reqs as [|q reqs]; [done|].
  rewrite IH by done. done.
Qed.

(** X22.  In a run that ends normally the sleeps are, in order, the
    ones the pages before the last one ask for: the backoff of the last
    page is never slept. *)
Theorem last_backoff_is_not_slept self from_date reqs fuel :
  reqs ≠ [] →
  serves self from_date 0 reqs →
  (∀ q, last reqs = Some q → has_more_of q.2 = false) →
  (length reqs < fuel)%nat →
  ∃ w, get_questions fuel self from_date = Some (None, w)
       ∧ slept (trace w) = flat_map (λ q, slept (backoff_sleep q.2)) (removelast reqs).
Proof.
  intros Hne Hserves Hlast Hfuel.
  destruct (get_questions_trace _ _ _ _ Hne Hserves Hlast Hfuel) as (w & Hrun & _ & Htr).
  exists w. split; [done|].
  by rewrite <- slept_unlogged, Htr, slept_schedule.
Qed.

(** X23.  [get_questions] has no bound of its own on the number of
    pages: against a transport that serves every page with a well-formed
    envelope announcing more, no amount of fuel lets the run end. *)
Theorem endless_pages_never_end self from_date
    (feed : nat → gmap string json * response) :
  (∀ i : nat,
      build_page_payload self (Z.of_nat i + 1) from_date = Ok (feed i).1
      ∧ HttpClient_fetch i (questions_url self) (feed i).1 = Ok (feed i).2
      ∧ well_formed (S i) (feed i).2 = true
      ∧ resp_text (feed i).2 ≠ EmptyString
      ∧ has_more_of (feed i).2 = true) →
  ∀ fuel, get_questions fuel self from_date = None.
Proof.
  intros Hfeed [|n]; [done|].
  assert (serves self from_date 0 (feed <$> seq 0 (S n))) as Hserves.
  { intros i p r Hi. apply list_lookup_fmap_Some in Hi as (j & Hpr & Hj).
    apply lookup_seq in Hj as [-> _]. cbn [Nat.add].
    destruct (Hfeed i) as (Hp & Hr & Hwf & Ht & Hm).
    cbn [Nat.add] in Hpr. rewrite <- Hpr in *. done. }
  cbn [seq fmap list_fmap] in Hserves.
  destruct (run_prefix _ _ _ _ Hserves) as (fr & w & Hrun & _).
  specialize (Hrun 0%nat). rewrite Nat.add_0_r in Hrun.
  cbn [length] in Hrun. rewrite length_fmap, length_seq in Hrun.
  by rewrite Hrun.
Qed.
End Whole.

(** ** Items of a fetch *)

Section Items.
Context `{PyRuntime} `{Perceval}.

Lemma take_resumed self from_date reqs :
  ∀ fr r0 (k : nat) w,
    frame_ok fr r0 (Z.of_nat k) → well_formed k r0 = true → calls w = k →
    (reqs ≠ [] → has_more_of r0 = true) →
    serves self from_date k reqs →
    ∃ fr' w',
      take_pages (length reqs) self from_date (Suspended fr) w
      = (resp_text <$> reqs.*2, Suspended fr', w')
      ∧ calls w' = (k + length reqs)%nat
      ∧ frame_ok fr' (default r0 (snd <$> last reqs)) (Z.of_nat (k + length reqs))
      ∧ well_formed (k + length reqs) (default r0 (snd <$> last reqs)) = true.
Proof.
  induction reqs as [|[p r] reqs IH]; intros fr r0 k w Hfr Hwf Hcalls Hmore Hs.
  - exists fr, w. cbn [length last fmap option_fmap option_map default].
    rewrite Nat.add_0_r. done.
  - destruct (Hs 0%nat p r eq_refl) as (Hp & Hr & Hwf' & Ht & Hm).
    rewrite Nat.add_0_r in Hp, Hr, Hwf'. rewrite <- Hcalls in Hr.
    destruct (resume_step self from_date fr r0 (Z.of_nat k) w p r)
      as (fr1 & evs & Hstep & Hevs & Hfr1); try done.
    { by rewrite Hcalls. }
    { by apply Hmore. }
    { by eapply well_formed_counters. }
    apply String.eqb_neq in Ht. rewrite Ht in Hstep, Hevs. cbn [negb] in Hstep, Hevs.
    destruct (IH fr1 r (S k) {| calls := S (calls w); trace := trace w ++ evs |})
      as (fr' & w' & Hrun & Hc & Hfr' & Hwf'').
    + by replace (Z.of_nat (S k)) with (Z.of_nat k + 1) by lia.
    + done.
    + cbn. by rewrite Hcalls.
    + intros Hne. apply Hm. destruct reqs; [done|]. cbn [length]. lia.
    + by eapply serves_tail.
    + exists fr', w'. split; [|split; [|split]].
      * cbn [length take_pages next]. by rewrite Hstep, Hrun.
      * cbn [length]. lia.
      * replace (k + length ((p, r) :: reqs))%nat with (S k + length reqs)%nat
          by (cbn [length]; lia).
        by rewrite last_resp_cons.
      * replace (k + length ((p, r) :: reqs))%nat with (S k + length reqs)%nat
          by (cbn [length]; lia).
        by rewrite last_resp_cons.
Qed.

(** The state reached by taking the pages [reqs], from a fresh generator
    in any world that has made no call. *)
Lemma take_served self from_date reqs w0 :
  calls w0 = 0%nat → reqs ≠ [] →
  serves self from_date 0 reqs →
  ∃ fr w q,
    last reqs = Some q
    ∧ take_pages (length reqs) self from_date Created w0
      = (resp_text <$> reqs.*2, Suspended fr, w)
    ∧ calls w = length reqs
    ∧ frame_ok fr q.2 (Z.of_nat (length reqs))
    ∧ well_formed (length reqs) q.2 = true.
Proof.
  intros Hw0 Hne Hs. destruct reqs as [|[p r] reqs]; [done|].
  destruct (Hs 0%nat p r eq_refl) as (Hp & Hr & Hwf & Ht & Hm).
  cbn [Nat.add] in Hr. rewrite <- Hw0 in Hr.
  destruct (start_step self from_date w0 p r)
    as (fr1 & evs & Hstep & Hevs & Hfr1); try done.
  { by eapply well_formed_counters. }
  apply String.eqb_neq in Ht. rewrite Ht in Hstep, Hevs. cbn [negb] in Hstep, Hevs.
  destruct (take_resumed self from_date reqs fr1 r 1%nat
              {| calls := S (calls w0); trace := trace w0 ++ evs |})
    as (fr' & w' & Hrun & Hc & Hfr' & Hwf''); try done.
  - cbn. by rewrite Hw0.
  - intros Hne'. apply Hm. destruct reqs; [done|]. cbn [length]. lia.
  - by eapply serves_tail.
  - exists fr', w', (default (p, r) (last reqs)).
    split; [rewrite last_cons; by destruct (last reqs)|].
    split; [cbn [length take_pages next]; by rewrite Hstep, Hrun|].
    split; [done|].
    by destruct (last reqs).
Qed.

Lemma parse_pages_take self from_date n :
  ∀ g w qs g' w' items,
    take_pages n self from_date g w = (qs, g', w') →
    length qs = n →
    Forall2 (λ q its, StackExchange.parse_questions q = (its, None)) qs items →
    ∀ fuel,
      parse_pages (n + fuel) self from_date g w
      = (λ '(rest, e, w''), (concat items ++ rest, e, w''))
          <$> parse_pages fuel self from_date g' w'.
Proof.
  induction n as [|n IH]; intros g w qs g' w' items Hrun Hlen Hparse fuel.
  - injection Hrun as <- <- <-. apply Forall2_nil_inv_l in Hparse as ->.
    cbn. by destruct (parse_pages fuel self from_date g w) as [[[rest e] w'']|].
  - cbn [take_pages] in Hrun. cbn [Nat.add parse_pages].
    destruct (next self from_date g w) as [[[q| |e] g1] w1];
      [|by injection Hrun as <- _ _..].
    destruct (take_pages n self from_date g1 w1) as [[qs1 g2] w2] eqn:Htake.
    injection Hrun as <- <- <-.
    apply Forall2_cons_inv_l in Hparse as (its & items' & Hq & Hrest & ->).
    rewrite Hq, (IH _ _ _ _ _ _ Htake) by (done || by injection Hlen).
    destruct (parse_pages fuel self from_date g2 w2) as [[[rest e] w'']|]; [|done].
    cbn. by rewrite <- app_assoc.
Qed.

Lemma parse_pages_fails self from_date n :
  ∀ g w qs q g' w' items its e,
    take_pages (S n) self from_date g w = (qs ++ [q], g', w') →
    length qs = n →
    Forall2 (λ q its, StackExchange.parse_questions q = (its, None)) qs items →
    StackExchange.parse_questions q = (its, Some e) →
    ∀ fuel,
      parse_pages (S n + fuel) self from_date g w
      = Some (concat items ++ its, Some e, w').
Proof.
  induction n as [|n IH]; intros g w qs q g' w' items its e Hrun Hlen Hparse Hq fuel.
  - destruct qs; [|done]. apply Forall2_nil_inv_l in Hparse as ->.
    cbn [take_pages app] in Hrun. cbn [Nat.add parse_pages].
    destruct (next self from_date g w) as [[[q'| |e'] g1] w1]; [|done..].
    injection Hrun as <- <- <-. by rewrite Hq.
  - destruct qs as [|q0 qs]; [done|].
    apply Forall2_cons_inv_l in Hparse as (its0 & items' & Hq0 & Hrest & ->).
    remember (S n) as m. cbn [take_pages app] in Hrun.
    cbn [Nat.add parse_pages].
    destruct (next self from_date g w) as [[[q'| |e'] g1] w1];
      [|by injection Hrun..].
    destruct (take_pages m self from_date g1 w1) as [[qs1 g2] w2] eqn:Htake.
    injection Hrun as -> -> <- <-. subst m.
    rewrite Hq0, (IH _ _ _ _ _ _ items' its e Htake) by (done || by injection Hlen).
    cbn. by rewrite <- app_assoc.
Qed.

Variable datetime_str : option datetime → string.

(** X24.  [fetch_items] yields the items of the pages in page order:
    when the transport serves the pages up to one that announces no more
    and every body parses, the fetch ends normally with the concatenation
    of the pages' items after one call per page. *)
Theorem fetch_items_flattens self category kwargs c from_date reqs items fuel :
  StackExchange.client self = Some c →
  kwargs !! "from_date" = Some from_date →
  reqs ≠ [] →
  serves c from_date 0 reqs →
  (∀ q, last reqs = Some q → has_more_of q.2 = false) →
  Forall2 (λ q its, StackExchange.parse_questions (resp_text q.2) = (its, None))
    reqs items →
  (length reqs < fuel)%nat →
  ∃ w, fetch_items datetime_str fuel self category kwargs
       = Some (concat items, None, w)
       ∧ calls w = length reqs.
Proof.
  intros Hc Hkw Hne Hserves Hlast Hparse Hfuel.
  unfold fetch_items. rewrite Hkw, Hc.
  set (w0 := (emit _ world0).2).
  destruct (take_served c from_date reqs w0) as (fr & w & q & Hq & Htake & Hcalls & Hfr & Hwf);
    try done.
  exists w. split; [|done].
  replace fuel with (length reqs + S (fuel - S (length reqs)))%nat by lia.
  erewrite parse_pages_take; [|done|by rewrite !length_fmap|].
  - cbn [parse_pages next].
    erewrite resume_stops; [|done..|by apply Hlast]. cbn. by rewrite app_nil_r.
  - clear -Hparse. induction Hparse as [|[p r] its reqs items Hq Hrest IH]; [done|].
    by constructor.
Qed.

(** X25.  A page that does not parse ends the fetch: the items of the
    pages before it are delivered, the exception of [parse_questions] is
    raised, and no further page is requested, whatever the page
    announced. *)
Theorem fetch_items_stops_at_bad_page self category kwargs c from_date
    reqs p r items its e fuel :
  StackExchange.client self = Some c →
  kwargs !! "from_date" = Some from_date →
  serves c from_date 0 (reqs ++ [(p, r)]) →
  Forall2 (λ q its, StackExchange.parse_questions (resp_text q.2) = (its, None))
    reqs items →
  StackExchange.parse_questions (resp_text r) = (its, Some e) →
  (length reqs < fuel)%nat →
  ∃ w, fetch_items datetime_str fuel self category kwargs
       = Some (concat items ++ its, Some e, w)
       ∧ calls w = S (length reqs).
Proof.
  intros Hc Hkw Hserves Hparse Hbad Hfuel.
  unfold fetch_items. rewrite Hkw, Hc.
  set (w0 := (emit _ world0).2).
  destruct (take_served c from_date (reqs ++ [(p, r)]) w0)
    as (fr & w & q & Hq & Htake & Hcalls & Hfr & Hwf); try done.
  { by destruct reqs. }
  rewrite length_app, Nat.add_1_r in Htake, Hcalls.
  rewrite fmap_app, fmap_app in Htake.
  exists w. split; [|done].
  replace fuel with (S (length reqs) + (fuel - S (length reqs)))%nat by lia.
  eapply parse_pages_fails; [exact Htake|by rewrite !length_fmap| |done].
  clear -Hparse. induction Hparse as [|[p r] its reqs items Hq Hrest IH]; [done|].
  by constructor.
Qed.

(** X26.  [fetch_items] raises [KeyError] when called without
    [from_date], before anything is logged, and [AttributeError] when the
    backend has no client yet, after the log record and without any
    transport call. *)
Theorem fetch_items_needs_client self category kwargs fuel :
  (kwargs !! "from_date" = None →
     fetch_items datetime_str fuel self category kwargs
     = Some ([], Some (KeyError "from_date"), world0))
  ∧ (is_Some (kwargs !! "from_date") → StackExchange.client self = None →
       ∃ w, fetch_items datetime_str fuel self category kwargs
            = Some ([], Some AttributeError, w)
            ∧ calls w = 0%nat ∧ unlogged (trace w) = []).
Proof.
  unfold fetch_items. split.
  - by intros ->.
  - intros [from_date ->] ->. eauto.
Qed.
End Items.

(** ** Scripted faults *)

Lemma first_page_served rest :
  @serves Scenario.runtime (Scenario.replay (Scenario.page1 :: rest)) Scenario.client None 0
    [(Scenario.payload 1, Scenario.page1)].
Proof.
  intros [|i] p r Hi; [|done]. injection Hi as <- <-.
  split; [by vm_compute|]. split; [done|]. split; [by vm_compute|].
  split; [vm_compute; discriminate|]. cbn. lia.
Qed.

Lemma first_page_more q :
  last [(Scenario.payload 1, Scenario.page1)] = Some q → has_more_of q.2 = true.
Proof. intros [= <-]. by vm_compute. Qed.

Lemma payload_keys_scenario :
  dom (Faults.payload_of Faults.authorized 1 (Some Scenario.since))
  = ({[PPAGE; PPAGESIZE; PORDER; PSORT; PTAGGED; PSITE; PKEY; PFILTER]} : gset string)
    ∪ {[PMIN]} ∪ {[PACCESSTOKEN]}.
Proof.
  apply (build_page_payload_dom Faults.authorized 1 (Some Scenario.since)).
  vm_compute. reflexivity.
Defined.

Lemma payload_next_scenario :
  Scenario.payload 2 = <[PPAGE := JInt 2]> (Scenario.payload 1).
Proof.
  apply (build_page_payload_next Scenario.client 1 2 None); reflexivity.
Defined.

Lemma archived_payload_ignores_credentials_scenario :
  deref (sanitize_for_archive "u" () 1%positive
           (<[1%positive := Scenario.payload 1]> ∅)).2 1%positive
  = deref (sanitize_for_archive "u" () 1%positive
             (<[1%positive := Faults.payload_of Faults.authorized 1 None]> ∅)).2 1%positive.
Proof.
  apply (archived_payload_ignores_credentials Scenario.client Faults.authorized 1 None);
    reflexivity.
Defined.

Lemma sanitize_for_archive_idempotent_scenario :
  sanitize_for_archive "u" () 1%positive
    (sanitize_for_archive "u" () 1%positive Scenario.store0).2
  = (Ok ("u", (), 1%positive),
     (sanitize_for_archive "u" () 1%positive Scenario.store0).2).
Proof.
  apply (proj2 (sanitize_for_archive_idempotent "u" () 1%positive Scenario.store0)).
  reflexivity.
Defined.

Lemma backend_client_credentials_scenario :
  ∃ k a,
    Faults.payload_of Faults.authorized 1 None !! PKEY = Some (JStr k)
    ∧ k ≠ EmptyString
    ∧ JStr "tok" = JStr a ∧ a ≠ EmptyString
    ∧ Some "aaa" = Some k ∧ Some "tok" = Some a.
Proof.
  apply (@backend_client_credentials (Scenario.replay [])
           "stackoverflow" (Some "python") (Some "aaa") (Some "tok") 1 None None true
           (@StackExchange.Build_t (Scenario.replay []) ("stackoverflow", None, true)
              "stackoverflow" (Some "aaa") (Some "tok") (Some "python") 1 None)
           1 None).
  - reflexivity.
  - vm_compute. reflexivity.
  - vm_compute. reflexivity.
Defined.

Lemma fetch_always_bounds_scenario :
  (StackExchange.fetch "question" (Some Scenario.since)).1 = "question"
  ∧ ∃ ts, Faults.payload_of Scenario.client 1 (Some Scenario.since) !! PMIN = Some (JInt ts)
          ∧ int_of_float (timestamp (default DEFAULT_DATETIME (Some Scenario.since))) = Ok ts.
Proof.
  apply (fetch_always_bounds Scenario.client 1 "question" (Some Scenario.since)).
  vm_compute. reflexivity.
Defined.

Lemma calls_are_numbered_scenario :
  ∃ res w,
    @get_questions Scenario.runtime (Scenario.replay [Scenario.page1]) 3
      Scenario.client None = Some (res, w)
    ∧ length (fetched (trace w)) = calls w
    ∧ ∀ (i : nat) p, fetched (trace w) !! i = Some p →
        build_page_payload Scenario.client (Z.of_nat i + 1) None = Ok p
        ∧ p !! PPAGE = Some (JInt (Z.of_nat i + 1)).
Proof.
  destruct (@get_questions Scenario.runtime (Scenario.replay [Scenario.page1]) 3
              Scenario.client None) as [[res w]|] eqn:Hrun;
    [|vm_compute in Hrun; discriminate].
  exists res, w. split; [reflexivity|].
  exact (@calls_are_numbered Scenario.runtime (Scenario.replay [Scenario.page1])
           Scenario.client None 3 res w Hrun).
Defined.


Lemma calls_follow_yields_scenario :
  ∃ res w,
    @get_questions Scenario.runtime (Scenario.replay [Scenario.page1]) 3
      Scenario.client None = Some (res, w)
    ∧ (length (yielded (trace w)) <= calls w <= S (length (yielded (trace w))))%nat.
Proof.
  destruct (@get_questions Scenario.runtime (Scenario.replay [Scenario.page1]) 3
              Scenario.client None) as [[res w]|] eqn:Hrun;
    [|vm_compute in Hrun; discriminate].
  exists res, w. split; [reflexivity|].
  exact (@calls_follow_yields Scenario.runtime (Scenario.replay [Scenario.page1])
           Scenario.client None 3 res w Hrun).
Defined.

Lemma take_is_lazy_scenario :
  ∃ qs g w,
    @take_pages Scenario.runtime (Scenario.replay [Scenario.page1; Scenario.page2]) 1
      Scenario.client None Created world0 = (qs, g, w)
    ∧ yielded (trace w) = qs
    ∧ (calls w <= 1)%nat
    ∧ (length qs = 1%nat → calls w = 1%nat).
Proof.
  destruct (@take_pages Scenario.runtime (Scenario.replay [Scenario.page1; Scenario.page2]) 1
              Scenario.client None Created world0) as [[qs g] w] eqn:Hrun.
  exists qs, g, w. split; [reflexivity|].
  exact (@take_is_lazy Scenario.runtime (Scenario.replay [Scenario.page1; Scenario.page2])
           Scenario.client None 1 qs g w Hrun).
Defined.

Lemma transport_error_propagates_scenario :
  ∃ w, @get_questions Scenario.runtime (Scenario.replay [Scenario.page1]) 2
         Scenario.client None
       = Some (Some (RequestException "no response left"), w)
       ∧ calls w = 2%nat
       ∧ unlogged (trace w)
         = @schedule Scenario.runtime (questions_url Scenario.client) None
             [(Scenario.payload 1, Scenario.page1)]
           ++ from_option (@backoff_sleep Scenario.runtime) []
                (snd <$> last [(Scenario.payload 1, Scenario.page1)])
           ++ [EFetch (questions_url Scenario.client) (Scenario.payload 2)].
Proof.
  apply (@transport_error_propagates Scenario.runtime (Scenario.replay [Scenario.page1])
           Scenario.client None [(Scenario.payload 1, Scenario.page1)] (Scenario.payload 2)
           (RequestException "no response left") 2).
  - exact (first_page_served []).
  - exact first_page_more.
  - vm_compute. reflexivity.
  - reflexivity.
  - simpl. lia.
Defined.

Lemma undecodable_page_is_dropped_scenario :
  ∃ w, @get_questions Scenario.runtime (Scenario.replay [Scenario.page1; Faults.garbled]) 2
         Scenario.client None
       = Some (Some JSONDecodeError, w)
       ∧ calls w = 2%nat
       ∧ unlogged (trace w)
         = @schedule Scenario.runtime (questions_url Scenario.client) None
             [(Scenario.payload 1, Scenario.page1)]
           ++ from_option (@backoff_sleep Scenario.runtime) []
                (snd <$> last [(Scenario.payload 1, Scenario.page1)])
           ++ [EFetch (questions_url Scenario.client) (Scenario.payload 2)].
Proof.
  apply (@undecodable_page_is_dropped Scenario.runtime
           (Scenario.replay [Scenario.page1; Faults.garbled])
           Scenario.client None [(Scenario.payload 1, Scenario.page1)] (Scenario.payload 2)
           Faults.garbled JSONDecodeError 2).
  - exact (first_page_served [Faults.garbled]).
  - exact first_page_more.
  - vm_compute. reflexivity.
  - reflexivity.
  - reflexivity.
  - simpl. lia.
Defined.

Lemma first_envelope_is_checked_scenario :
  ∃ k' w,
    @get_questions Scenario.runtime
      (Scenario.replay [Faults.page_of (Faults.without "total" Scenario.doc1)]) 1
      Scenario.client None = Some (Some (KeyError k'), w)
    ∧ k' ∈ ["total"; "page_size"; "quota_remaining"; "quota_max"]
    ∧ assoc k' [("items", JList [Scenario.question 1 1000]); ("has_more", JBool true);
                ("backoff", JInt 2); ("quota_remaining", JInt 9); ("quota_max", JInt 10);
                ("page_size", JInt 1)] = None
    ∧ calls w = 1%nat
    ∧ trace w = [EFetch (questions_url Scenario.client) (Scenario.payload 1)].
Proof.
  apply (@first_envelope_is_checked Scenario.runtime
           (Scenario.replay [Faults.page_of (Faults.without "total" Scenario.doc1)])
           Scenario.client None (Scenario.payload 1)
           (Faults.page_of (Faults.without "total" Scenario.doc1)) _ "total" 0).
  - vm_compute. reflexivity.
  - reflexivity.
  - reflexivity.
  - constructor.
  - reflexivity.
Defined.

Lemma missing_has_more_raises_scenario :
  ∃ w, @get_questions Scenario.runtime
         (Scenario.replay [Scenario.page1;
                           Faults.page_of (Faults.without "has_more" Scenario.doc2)]) 3
         Scenario.client None
       = Some (Some (KeyError "has_more"), w)
       ∧ calls w = 2%nat
       ∧ unlogged (trace w)
         = @schedule Scenario.runtime (questions_url Scenario.client) None
             ([(Scenario.payload 1, Scenario.page1)]
              ++ [(Scenario.payload 2,
                   Faults.page_of (Faults.without "has_more" Scenario.doc2))]).
Proof.
  apply (@missing_has_more_raises Scenario.runtime
           (Scenario.replay [Scenario.page1;
                             Faults.page_of (Faults.without "has_more" Scenario.doc2)])
           Scenario.client None [(Scenario.payload 1, Scenario.page1)] (Scenario.payload 2)
           (Faults.page_of (Faults.without "has_more" Scenario.doc2)) 3).
  - exact (first_page_served _).
  - exact first_page_more.
  - vm_compute. reflexivity.
  - reflexivity.
  - vm_compute. reflexivity.
  - vm_compute. discriminate.
  - reflexivity.
  - simpl. lia.
Defined.

Lemma bad_backoff_stops_scenario :
  ∃ e w, @get_questions Scenario.runtime
           (Scenario.replay [Scenario.page1; Faults.page_of Faults.hasty_doc]) 3
           Scenario.client None
         = Some (Some e, w)
         ∧ (@py_float Scenario.runtime (backoff_of (Faults.page_of Faults.hasty_doc))
            ≫= @sleep_check Scenario.runtime 2) = Err e
         ∧ calls w = 2%nat
         ∧ unlogged (trace w)
           = @schedule Scenario.runtime (questions_url Scenario.client) None
               ([(Scenario.payload 1, Scenario.page1)]
                ++ [(Scenario.payload 2, Faults.page_of Faults.hasty_doc)]).
Proof.
  apply (@bad_backoff_stops Scenario.runtime
           (Scenario.replay [Scenario.page1; Faults.page_of Faults.hasty_doc])
           Scenario.client None [(Scenario.payload 1, Scenario.page1)] (Scenario.payload 2)
           (Faults.page_of Faults.hasty_doc) 3).
  - exact (first_page_served _).
  - exact first_page_more.
  - vm_compute. reflexivity.
  - reflexivity.
  - vm_compute. reflexivity.
  - vm_compute. discriminate.
  - vm_compute. reflexivity.
  - vm_compute. reflexivity.
  - simpl. lia.
Defined.

Lemma last_backoff_is_not_slept_scenario :
  ∃ w, @get_questions Scenario.runtime (Scenario.replay [Scenario.page1; Scenario.page2])
         3 Scenario.client None = Some (None, w)
       ∧ slept (trace w) = [S754_finite false 4503599627370496 (-51)].
Proof.
  destruct (@last_backoff_is_not_slept Scenario.runtime
              (Scenario.replay [Scenario.page1; Scenario.page2])
              Scenario.client None Scenario.pages 3) as (w & Hrun & Hs).
  - discriminate.
  - exact scenario_serves.
  - exact scenario_last.
  - simpl. lia.
  - exists w. split; [assumption|]. rewrite Hs. vm_compute. reflexivity.
Defined.

Lemma endless_pages_never_end_scenario :
  @get_questions Scenario.runtime (Faults.forever Scenario.page1) 5 Scenario.client None
  = None.
Proof.
  apply (@endless_pages_never_end Scenario.runtime (Faults.forever Scenario.page1)
           Scenario.client None
           (λ i, (Faults.payload_of Scenario.client (Z.of_nat i + 1) None, Scenario.page1))).
  intros i. split; [reflexivity|]. split; [reflexivity|].
  split; [vm_compute; reflexivity|]. split; [vm_compute; discriminate|].
  vm_compute. reflexivity.
Defined.

Lemma metadata_id_distinguishes_scenario :
  @StackExchange.metadata_id Scenario.runtime (Scenario.question 1 1000)
  ≠ @StackExchange.metadata_id Scenario.runtime (Scenario.question 2 2000).
Proof.
  apply (@metadata_id_distinguishes Scenario.runtime
           (Scenario.question 1 1000) (Scenario.question 2 2000) 1 2).
  - reflexivity.
  - reflexivity.
  - lia.
Defined.

Lemma metadata_id_conflates_scenario :
  @StackExchange.metadata_id Scenario.runtime (Scenario.question 5 1000)
  = @StackExchange.metadata_id Scenario.runtime (JDict [("question_id", JStr "5")]).
Proof.
  apply (@metadata_id_conflates Scenario.runtime
           (Scenario.question 5 1000) (JDict [("question_id", JStr "5")]) 5).
  - reflexivity.
  - vm_compute. reflexivity.
Defined.

Lemma metadata_needs_fields_scenario :
  @StackExchange.metadata_id Scenario.runtime (JDict [("title", JStr "t")])
  = Err (KeyError "question_id")
  ∧ @StackExchange.metadata_updated_on Scenario.runtime (JList [])
    = Err TypeError.
Proof.
  split.
  - apply (proj1 (@metadata_needs_fields Scenario.runtime) [("title", JStr "t")]).
    reflexivity.
  - apply (proj1 (proj2 (proj2 (@metadata_needs_fields Scenario.runtime))) (JList [])).
    intros kvs. discriminate.
Defined.

Lemma parse_questions_other_items_scenario :
  @StackExchange.parse_questions Faults.runtime (Scenario.dumps Faults.keyed_doc)
  = ([JStr "a"; JStr "b"], None).
Proof.
  apply (@parse_questions_other_items Faults.runtime
           (Scenario.dumps Faults.keyed_doc) Faults.keyed_doc
           (JDict [("a", JInt 1); ("b", JInt 2)])).
  - vm_compute. reflexivity.
  - reflexivity.
Defined.

Lemma log_status_incomparable_scenario :
  @__log_status Scenario.runtime (JInt 9) (JInt 10) (JInt 1) (JStr "many") world0
  = (Err TypeError,
     {| calls := 0; trace := [] ++ [ELog DEBUG ("Rate limit: " +:+ "9" +:+ "/" +:+ "10")] |}).
Proof.
  apply (@log_status_incomparable Scenario.runtime
           (JInt 9) (JInt 10) (JInt 1) (JStr "many") TypeError world0).
  - reflexivity.
  - reflexivity.
Defined.

Lemma fetch_items_flattens_scenario :
  ∃ w, @fetch_items Scenario.runtime (Scenario.replay [Scenario.page1; Scenario.page2])
         Faults.datetime_str 3 (Faults.backend [Scenario.page1; Scenario.page2])
         "question" Faults.kwargs
       = Some (concat [[Scenario.question 1 1000]; [Scenario.question 2 2000]], None, w)
       ∧ calls w = 2%nat.
Proof.
  apply (@fetch_items_flattens Scenario.runtime
           (Scenario.replay [Scenario.page1; Scenario.page2]) Faults.datetime_str
           (Faults.backend [Scenario.page1; Scenario.page2]) "question" Faults.kwargs
           Scenario.client None Scenario.pages
           [[Scenario.question 1 1000]; [Scenario.question 2 2000]] 3).
  - reflexivity.
  - reflexivity.
  - discriminate.
  - exact scenario_serves.
  - exact scenario_last.
  - repeat constructor; vm_compute; reflexivity.
  - simpl. lia.
Defined.

Lemma bad_page_served :
  @serves Faults.runtime
    (Scenario.replay [Scenario.page1; Faults.page_of (Faults.without "items" Scenario.doc1)])
    Scenario.client None 0
    ([(Scenario.payload 1, Scenario.page1)]
     ++ [(Scenario.payload 2, Faults.page_of (Faults.without "items" Scenario.doc1))]).
Proof.
  intros [|[|i]] p r Hi; [| |done]; injection Hi as <- <-.
  - split; [by vm_compute|]. split; [by vm_compute|]. split; [by vm_compute|].
    split; [vm_compute; discriminate|]. intros _. by vm_compute.
  - split; [by vm_compute|]. split; [by vm_compute|]. split; [by vm_compute|].
    split; [vm_compute; discriminate|]. cbn. lia.
Qed.

Lemma fetch_items_stops_at_bad_page_scenario :
  ∃ w, @fetch_items Faults.runtime
         (Scenario.replay [Scenario.page1;
                           Faults.page_of (Faults.without "items" Scenario.doc1)])
         Faults.datetime_str 2
         (Faults.backend [Scenario.page1;
                          Faults.page_of (Faults.without "items" Scenario.doc1)])
         "question" Faults.kwargs
       = Some (concat [[Scenario.question 1 1000]] ++ [], Some (KeyError "items"), w)
       ∧ calls w = 2%nat.
Proof.
  apply (@fetch_items_stops_at_bad_page Faults.runtime
           (Scenario.replay [Scenario.page1;
                             Faults.page_of (Faults.without "items" Scenario.doc1)])
           Faults.datetime_str
           (Faults.backend [Scenario.page1;
                            Faults.page_of (Faults.without "items" Scenario.doc1)])
           "question" Faults.kwargs Scenario.client None
           [(Scenario.payload 1, Scenario.page1)] (Scenario.payload 2)
           (Faults.page_of (Faults.without "items" Scenario.doc1))
           [[Scenario.question 1 1000]] [] (KeyError "items") 2).
  - reflexivity.
  - reflexivity.
  - exact bad_page_served.
  - repeat constructor; vm_compute; reflexivity.
  - vm_compute. reflexivity.
  - simpl. lia.
Defined.

Lemma fetch_items_needs_client_scenario :
  @fetch_items Scenario.runtime (Scenario.replay []) Faults.datetime_str 1
    (@StackExchange.Build_t (Scenario.replay []) ("stackoverflow", None, true)
       "stackoverflow" (Some "aaa") None (Some "python") 1 None)
    "question" ∅
  = Some ([], Some (KeyError "from_date"), world0).
Proof.
  apply (proj1 (@fetch_items_needs_client Scenario.runtime (Scenario.replay [])
                  Faults.datetime_str
                  (@StackExchange.Build_t (Scenario.replay []) ("stackoverflow", None, true)
                     "stackoverflow" (Some "aaa") None (Some "python") 1 None)
                  "question" ∅ 1)).
  reflexivity.
Defined.

(** C10 as stated fails: the transport answers the first request with an
    empty body, [json()] raises on it, and the iteration ends with that
    exception after the one call instead of ending as an empty sequence. *)
Lemma empty_body_raises :
  @get_questions Scenario.runtime (Scenario.replay [Faults.empty_body]) 1
    Scenario.client None
  = Some (Some JSONDecodeError,
          {| calls := 1;
             trace := [EFetch (questions_url Scenario.client) (Scenario.payload 1)] |})
  ∧ ∀ fuel w, @get_questions Scenario.runtime (Scenario.replay [Faults.empty_body]) fuel
                Scenario.client None ≠ Some (None, w).
Proof.
  split; [vm_compute; reflexivity|].
  intros [|fuel] w; [discriminate|]. vm_compute. discriminate.
Qed.

Lemma empty_body_ends_pages_scenario :
  (∃ e w', @consume Scenario.runtime (Scenario.replay [Faults.empty_body; Scenario.page2])
             1 Scenario.client None Created world0 = Some (e, w')
           ∧ yielded (trace w') = yielded (trace world0)
           ∧ (calls w' <= 1)%nat)
  ∧ (∃ w, @get_questions Scenario.runtime
            (Scenario.replay [Scenario.page1; Faults.empty_body])
            2 Scenario.client None = Some (Some JSONDecodeError, w)
          ∧ calls w = 2%nat
          ∧ fetched (trace w) = [Scenario.payload 1] ++ [Scenario.payload 2]
          ∧ yielded (trace w) = [resp_text Scenario.page1]).
Proof.
  split.
  - apply (proj1 (@empty_body_ends_pages Scenario.runtime
                    (Scenario.replay [Faults.empty_body; Scenario.page2]))).
    + lia.
    + intros url p r. simpl. intros Hr. injection Hr as <-. reflexivity.
  - apply (proj2 (@empty_body_ends_pages Scenario.runtime
                    (Scenario.replay [Scenario.page1; Faults.empty_body]))
             Scenario.client None [(Scenario.payload 1, Scenario.page1)]
             (Scenario.payload 2) Faults.empty_body JSONDecodeError 2%nat).
    + exact (first_page_served _).
    + exact first_page_more.
    + vm_compute. reflexivity.
    + reflexivity.
    + reflexivity.
    + reflexivity.
    + vm_compute. reflexivity.
    + simpl. lia.
Defined.
